(** * API Latency Monitor: the monitoring core of [LatencyMonitor]

    A shallow embedding of the hardened [LatencyMonitor] class (monitor.js)
    and of the provider registry (providers.js), followed by the properties
    of the statistics aggregator, the probe round, the ping strategy, the
    query surface and the snapshot interface.

    Modelling conventions.
    - A JavaScript number is a [JS.num]: an integer-valued finite double,
      [Infinity], [-Infinity] or [NaN].  Every latency the monitor records is
      the result of [Math.round], and every counter is an integer, so the
      finite numbers of the model are integers; their arithmetic is exact,
      as it is for doubles below 2^53.  Negative zero is identified with
      zero.
    - A provider object and its stats object are records passed by value:
      the monitor is their only writer, and an object literal of the
      source is a fresh record.  History arrays are reached through
      references that are copied (the spread [{ ...provider.stats }] copies
      the reference, not the array), so they live in a store and a stats
      record holds a location.
    - [Date.now()], [performance.now()] and the outcome of [fetch] are
      inputs of the functions that read them. *)

From Stdlib Require Import ZArith Lia.
From stdpp Require Import base list strings.

Local Open Scope Z_scope.

(** ** JavaScript numbers and values *)

Module JS.

Inductive num : Set :=
| Fin (z : Z)
| PInf
| NInf
| NaN.

Inductive value : Set :=
| VUndefined
| VNull
| VBool (b : bool)
| VNum (n : num)
| VStr (s : string).

(** [isNaN(x)] on a number. *)
Definition isNaN (n : num) : bool :=
  match n with NaN => true | _ => false end.

(** Truthiness of a number: [0] and [NaN] are falsy. *)
Definition truthy (n : num) : bool :=
  match n with
  | Fin z => negb (z =? 0)
  | NaN => false
  | _ => true
  end.

(** [a || b] on numbers. *)
Definition or (a b : num) : num := if truthy a then a else b.

(** [a + b]. *)
Definition add (a b : num) : num :=
  match a, b with
  | NaN, _ | _, NaN => NaN
  | PInf, NInf | NInf, PInf => NaN
  | PInf, _ | _, PInf => PInf
  | NInf, _ | _, NInf => NInf
  | Fin x, Fin y => Fin (x + y)
  end.

(** [a < b]; every comparison with [NaN] is false. *)
Definition lt (a b : num) : bool :=
  match a, b with
  | NaN, _ | _, NaN => false
  | _, NInf => false
  | NInf, _ => true
  | PInf, _ => false
  | _, PInf => true
  | Fin x, Fin y => x <? y
  end.

(** [a > b]. *)
Definition gt (a b : num) : bool := lt b a.

(** [a === b] on numbers: [NaN] is not equal to itself. *)
Definition seq (a b : num) : bool :=
  match a, b with
  | NaN, _ | _, NaN => false
  | Fin x, Fin y => x =? y
  | PInf, PInf | NInf, NInf => true
  | _, _ => false
  end.

(** [Math.min(a, b)] and [Math.max(a, b)]: [NaN] if either is. *)
Definition min (a b : num) : num :=
  match a, b with
  | NaN, _ | _, NaN => NaN
  | _, _ => if lt b a then b else a
  end.

Definition max (a b : num) : num :=
  match a, b with
  | NaN, _ | _, NaN => NaN
  | _, _ => if lt a b then b else a
  end.

(** [Math.round(a / b)].  [Math.round] rounds to the nearest integer and a
    half towards +Infinity, that is [floor (a/b + 1/2)], which for
    integers is [(2a + b) / (2b)] in floor division. *)
Definition round_div (a b : num) : num :=
  match a, b with
  | NaN, _ | _, NaN => NaN
  | Fin x, Fin y =>
      if y =? 0
      then (if 0 <? x then PInf else if x <? 0 then NInf else NaN)
      else Fin ((2 * x + y) / (2 * y))
  | Fin _, _ => Fin 0
  | PInf, Fin y => if y <? 0 then NInf else PInf
  | NInf, Fin y => if y <? 0 then PInf else NInf
  | _, _ => NaN
  end.

End JS.

(** ** The store of history arrays *)

Abbreviation loc := nat.

Record Sample : Set := mkSample { timestamp : Z; latency : JS.num }.

(** The store maps a location to the array it designates; [h !! l = None]
    when [l] designates no array. *)
Abbreviation heap := (list (list Sample)).

Module Arr.

(** [Array.isArray(a)] *)
Definition isArray (h : heap) (l : loc) : bool :=
  match h !! l with Some _ => true | None => false end.

(** The elements of the array at [l]. *)
Definition elems (h : heap) (l : loc) : list Sample :=
  default [] (h !! l).

(** [[]]: a fresh empty array, at the next free location. *)
Definition alloc (h : heap) : heap * loc := (h ++ [[]], length h).

(** [a.push(x)] *)
Definition push (h : heap) (l : loc) (x : Sample) : heap :=
  alter (fun a => a ++ [x]) l h.

(** [a.shift()]: removes the first element. *)
Definition shift (h : heap) (l : loc) : heap :=
  alter (fun a => tail a) l h.

(** [a.length] *)
Definition length (h : heap) (l : loc) : nat := List.length (elems h l).

End Arr.

(** ** ProviderStats *)

Module Stats.

Record t : Set := mk {
  current : option JS.num;     (* [null] is [None] *)
  min : JS.num;
  max : JS.num;
  avg : JS.num;
  total : JS.num;
  count : JS.num;
  successes : JS.num;
  failures : JS.num;
  history : loc
}.

Definition set_current v s :=
  mk v (min s) (max s) (avg s) (total s) (count s) (successes s) (failures s) (history s).
Definition set_min v s :=
  mk (current s) v (max s) (avg s) (total s) (count s) (successes s) (failures s) (history s).
Definition set_max v s :=
  mk (current s) (min s) v (avg s) (total s) (count s) (successes s) (failures s) (history s).
Definition set_avg v s :=
  mk (current s) (min s) (max s) v (total s) (count s) (successes s) (failures s) (history s).
Definition set_total v s :=
  mk (current s) (min s) (max s) (avg s) v (count s) (successes s) (failures s) (history s).
Definition set_count v s :=
  mk (current s) (min s) (max s) (avg s) (total s) v (successes s) (failures s) (history s).
Definition set_successes v s :=
  mk (current s) (min s) (max s) (avg s) (total s) (count s) v (failures s) (history s).
Definition set_failures v s :=
  mk (current s) (min s) (max s) (avg s) (total s) (count s) (successes s) v (history s).
Definition set_history v s :=
  mk (current s) (min s) (max s) (avg s) (total s) (count s) (successes s) (failures s) v.

(** The object literal of the constructor and of [clearStats], with its
    [history: []] at location [l]. *)
Definition initial (l : loc) : t :=
  mk None JS.PInf (JS.Fin 0) (JS.Fin 0) (JS.Fin 0) (JS.Fin 0) (JS.Fin 0) (JS.Fin 0) l.

End Stats.

(** ** Providers *)

Inductive Status : Set := idle | testing | online | offline.

(** A field of a registry record: [None] when the field is absent. *)
Definition truthy_str (s : option string) : bool :=
  match s with
  | Some s => negb (String.eqb s "")
  | None => false
  end.

(** [s || d] for a string field. *)
Definition or_str (s : option string) (d : string) : string :=
  match s with
  | Some s => if String.eqb s "" then d else s
  | None => d
  end.

Module Config.

(** An entry of [API_PROVIDERS]. *)
Record t : Set := mk {
  id : option string;
  name : option string;
  endpoint : option string;
  pingPath : option string;
  color : option string;
  requiresAuth : bool
}.

End Config.

Module Provider.

(** [{ ...provider, stats: {...}, status: 'idle' }] *)
Record t : Set := mk {
  config : Config.t;
  stats : Stats.t;
  status : Status
}.

Definition id p := Config.id (config p).
Definition name p := Config.name (config p).
Definition endpoint p := Config.endpoint (config p).
Definition pingPath p := Config.pingPath (config p).
Definition color p := Config.color (config p).

Definition set_stats v p := mk (config p) v (status p).
Definition set_status v p := mk (config p) (stats p) v.

End Provider.

(** ** The stats aggregator: [updateStats]

    [now] is the reading of [Date.now()].  The guard [!provider ||
    !provider.stats] never fires on a provider record. *)

Definition updateStats (h : heap) (provider : Provider.t)
    (latency : JS.value) (success : bool) (now : Z) : heap * Provider.t :=
  let stats := Provider.stats provider in
  let stats := Stats.set_count (JS.add (JS.or (Stats.count stats) (JS.Fin 0)) (JS.Fin 1)) stats in
  let failure :=
    let stats := Stats.set_failures (JS.add (JS.or (Stats.failures stats) (JS.Fin 0)) (JS.Fin 1)) stats in
    let stats := Stats.set_current None stats in
    (h, Provider.set_stats stats provider) in
  match latency with
  | JS.VNum l =>
      if success && negb (JS.isNaN l) then
        let stats := Stats.set_successes (JS.add (JS.or (Stats.successes stats) (JS.Fin 0)) (JS.Fin 1)) stats in
        let stats := Stats.set_current (Some l) stats in
        let stats := Stats.set_total (JS.add (JS.or (Stats.total stats) (JS.Fin 0)) l) stats in
        let stats :=
          if JS.gt (Stats.successes stats) (JS.Fin 0)
          then Stats.set_avg (JS.round_div (Stats.total stats) (Stats.successes stats)) stats
          else stats in
        let stats := Stats.set_min (JS.min (JS.or (Stats.min stats) JS.PInf) l) stats in
        let stats := Stats.set_max (JS.max (JS.or (Stats.max stats) (JS.Fin 0)) l) stats in
        (* Add to history (keep last 100) *)
        let '(h, stats) :=
          if Arr.isArray h (Stats.history stats) then (h, stats)
          else let '(h, a) := Arr.alloc h in (h, Stats.set_history a stats) in
        let h := Arr.push h (Stats.history stats) (mkSample now l) in
        let h :=
          if (100 <? Arr.length h (Stats.history stats))%nat
          then Arr.shift h (Stats.history stats)
          else h in
        (h, Provider.set_stats stats provider)
      else failure
  | _ => failure
  end.

(** ** Exceptions

    A computation that returns or throws; [try_catch] is [try { } catch
    (error) { }].  A thrown value is known by its [name] property. *)

Record error : Set := mkError { err_name : string }.

Inductive result (A : Type) : Type :=
| Return (a : A)
| Throw (e : error).
Arguments Return {A} a.
Arguments Throw {A} e.

Definition bind {A B} (c : result A) (k : A -> result B) : result B :=
  match c with
  | Return a => k a
  | Throw e => Throw e
  end.

Definition try_catch {A} (body : result A) (handler : error -> result A) : result A :=
  match body with
  | Return a => Return a
  | Throw e => handler e
  end.

Notation "'await' x := c 'in' k" := (bind c (fun x => k))
  (at level 10, x name, c at level 100, k at level 200).

(** ** The ping strategy: [pingTest]

    [abortController] tells whether [AbortController] is defined; [fetch]
    is the outcome of [await fetch(...)]: it resolves, or rejects with an
    error, which is an [AbortError] when the 10 second timer fired and
    aborted the request through the controller's signal. *)

Definition pingTest (abortController : bool) (fetch : result unit)
    (provider : Provider.t) : result bool :=
  if negb (truthy_str (Provider.endpoint provider))
     || negb (truthy_str (Provider.pingPath provider))
  then Return false
  else
    try_catch
      (if negb abortController then
         (* Fallback without timeout *)
         await response := fetch in
         Return true
       else
         try_catch
           (await response := fetch in
            Return true)
           (fun error =>
              if String.eqb (err_name error) "AbortError"
              then Return false
              else Return true))
      (fun error => Return false).

Definition simpleRequest := pingTest.
Definition fullRequest := pingTest.

(** ** The monitor *)

Module Monitor.

Record t : Set := mk {
  providers : list Provider.t;
  isMonitoring : bool;
  monitoringInterval : option nat;
  testMode : string;
  totalTests : JS.num;
  onUpdate : bool              (* [typeof this.onUpdate === 'function'] *)
}.

Definition set_providers v m :=
  mk v (isMonitoring m) (monitoringInterval m) (testMode m) (totalTests m) (onUpdate m).
Definition set_totalTests v m :=
  mk (providers m) (isMonitoring m) (monitoringInterval m) (testMode m) v (onUpdate m).
Definition set_onUpdate v m :=
  mk (providers m) (isMonitoring m) (monitoringInterval m) (testMode m) (totalTests m) v.

End Monitor.

(** [API_PROVIDERS.map(provider => ...).filter(Boolean)]: a [null] entry is
    skipped, every other entry is instantiated with fresh stats. *)
Fixpoint instantiate (h : heap) (registry : list (option Config.t))
    : heap * list Provider.t :=
  match registry with
  | [] => (h, [])
  | None :: registry => instantiate h registry
  | Some provider :: registry =>
      let '(h, a) := Arr.alloc h in
      let p := Provider.mk provider (Stats.initial a) idle in
      let '(h, ps) := instantiate h registry in
      (h, p :: ps)
  end.

(** The constructor; [API_PROVIDERS] is [None] when it is undefined or not
    an array. *)
Definition constructor (h : heap) (API_PROVIDERS : option (list (option Config.t)))
    : heap * Monitor.t :=
  let '(h, providers) :=
    match API_PROVIDERS with
    | None => (h, [])
    | Some registry => instantiate h registry
    end in
  (h, Monitor.mk providers false None "ping" (JS.Fin 0) false).

(** [setUpdateCallback(callback)]; the argument tells whether [callback]
    is a function. *)
Definition setUpdateCallback (callback : bool) (m : Monitor.t) : Monitor.t :=
  if callback then Monitor.set_onUpdate true m else m.

(** ** Notifications

    The events handed to the update callback, oldest first, each with the
    registry index of its provider.  The callback is an observer; what it
    throws is caught in [notifyUpdate]. *)

Inductive Event : Set := ev_testing | ev_complete.

Record State : Set := mkState {
  store : heap;
  monitor : Monitor.t;
  notified : list (Event * nat)
}.

Definition notifyUpdate (event : Event) (i : nat) (s : State) : State :=
  if Monitor.onUpdate (monitor s)
  then mkState (store s) (monitor s) (notified s ++ [(event, i)])
  else s.

(** ** A probe of one provider: [testProvider]

    What one run of [testProvider] reads from its environment. *)
Record Probe : Set := mkProbe {
  performance : bool;          (* the Performance API is available *)
  elapsed : JS.num;            (* [Math.round(endTime - startTime)] *)
  abortController : bool;      (* [AbortController] is defined *)
  fetch : result unit;         (* the outcome of [await fetch(...)] *)
  now : Z                      (* [Date.now()] *)
}.

Definition set_provider (i : nat) (p : Provider.t) (s : State) (h : heap) : State :=
  mkState h (Monitor.set_providers (<[i := p]> (Monitor.providers (monitor s))) (monitor s))
    (notified s).

(** Up to the first [await]: the provider is marked and announced. *)
Definition testProvider_dispatch (i : nat) (s : State) : State :=
  match Monitor.providers (monitor s) !! i with
  | None => s
  | Some provider =>
      let s := set_provider i (Provider.set_status testing provider) s (store s) in
      notifyUpdate ev_testing i s
  end.

(** The body of the [try] block, after which the stats are updated. *)
Definition measure (testMode : string) (pr : Probe) (provider : Provider.t)
    : result (bool * JS.num) :=
  if negb (performance pr)
  then Throw (mkError "Error")
  else
    await success :=
      (if String.eqb testMode "ping" then pingTest (abortController pr) (fetch pr) provider
       else if String.eqb testMode "simple" then simpleRequest (abortController pr) (fetch pr) provider
       else fullRequest (abortController pr) (fetch pr) provider) in
    let latency := elapsed pr in
    if JS.isNaN latency || JS.lt latency (JS.Fin 0)
    then Throw (mkError "Error")
    else Return (success, latency).

(** The stats update and the status that follow the [try] block or its
    [catch]. *)
Definition settle_provider (h : heap) (testMode : string) (pr : Probe)
    (provider : Provider.t) : heap * Provider.t :=
  match measure testMode pr provider with
  | Return (true, latency) =>
      let '(h, provider) := updateStats h provider (JS.VNum latency) true (now pr) in
      (h, Provider.set_status online provider)
  | Return (false, _) =>
      let '(h, provider) := updateStats h provider JS.VNull false (now pr) in
      (h, Provider.set_status offline provider)
  | Throw _ =>
      let '(h, provider) := updateStats h provider JS.VNull false (now pr) in
      (h, Provider.set_status offline provider)
  end.

(** From the resumption of [testProvider] to its end. *)
Definition testProvider_settle (i : nat) (pr : Probe) (s : State) : State :=
  match Monitor.providers (monitor s) !! i with
  | None => s
  | Some provider =>
      let '(h, provider) :=
        settle_provider (store s) (Monitor.testMode (monitor s)) pr provider in
      notifyUpdate ev_complete i (set_provider i provider s h)
  end.

Definition testProvider (i : nat) (pr : Probe) (s : State) : State :=
  testProvider_settle i pr (testProvider_dispatch i s).

(** ** A probe round: [runTests]

    [probes i] is what the probe of provider [i] reads in this round. *)

Definition increment_totalTests (s : State) : State :=
  mkState (store s)
    (Monitor.set_totalTests (JS.add (Monitor.totalTests (monitor s)) (JS.Fin 1)) (monitor s))
    (notified s).

(** The round in which every probe settles in registry order. *)
Definition runTests (probes : nat -> Probe) (s : State) : State :=
  let n := length (Monitor.providers (monitor s)) in
  let s := foldl (fun s i => testProvider_dispatch i s) s (seq 0 n) in
  let s := foldl (fun s i => testProvider_settle i (probes i) s) s (seq 0 n) in
  increment_totalTests s.

(** The round as the event loop runs it.  [providers.map] dispatches the
    probes in registry order; a dispatched probe settles at any later
    time, in any order; [await Promise.allSettled(promises)] resumes once
    every probe is dispatched and none is pending, and then
    [this.totalTests++] runs. *)
Record Round : Set := mkRound {
  state : State;
  dispatched : nat;
  pending : list nat;
  joined : bool
}.

Definition round_start (s : State) : Round := mkRound s 0 [] false.

Inductive round_step (probes : nat -> Probe) : Round -> Round -> Prop :=
| step_dispatch r :
    (dispatched r < length (Monitor.providers (monitor (state r))))%nat ->
    round_step probes r
      (mkRound (testProvider_dispatch (dispatched r) (state r))
         (S (dispatched r)) (pending r ++ [dispatched r]) (joined r))
| step_settle r i :
    i ∈ pending r ->
    round_step probes r
      (mkRound (testProvider_settle i (probes i) (state r))
         (dispatched r) (filter (fun j => j <> i) (pending r)) (joined r))
| step_join r :
    dispatched r = length (Monitor.providers (monitor (state r))) ->
    pending r = [] ->
    joined r = false ->
    round_step probes r
      (mkRound (increment_totalTests (state r)) (dispatched r) (pending r) true).

Inductive round_steps (probes : nat -> Probe) : Round -> Round -> Prop :=
| steps_refl r : round_steps probes r r
| steps_snoc r1 r2 r3 :
    round_steps probes r1 r2 -> round_step probes r2 r3 -> round_steps probes r1 r3.

(** ** The snapshot: [getStats] *)

Module Snapshot.

Record t : Set := mk {
  id : string;
  name : string;
  color : string;
  status : Status;
  stats : Stats.t
}.

End Snapshot.

(** [{ ...provider.stats }]: a new object with the same field values; the
    [history] field holds the same reference. *)
Definition spread (stats : Stats.t) : Stats.t :=
  Stats.mk (Stats.current stats) (Stats.min stats) (Stats.max stats) (Stats.avg stats)
    (Stats.total stats) (Stats.count stats) (Stats.successes stats) (Stats.failures stats)
    (Stats.history stats).

Definition getStats (m : Monitor.t) : list Snapshot.t :=
  map (fun provider =>
         Snapshot.mk
           (or_str (Provider.id provider) "unknown")
           (or_str (Provider.name provider) "Unknown")
           (or_str (Provider.color provider) "#000000")
           (Provider.status provider)
           (spread (Provider.stats provider)))
    (Monitor.providers m).

(** ** The query surface: [getFastestProvider] *)

(** [typeof p.stats.current === 'number' && p.stats.current !== null] *)
Definition has_current (p : Provider.t) : bool :=
  match Stats.current (Provider.stats p) with
  | Some _ => true
  | None => false
  end.

(** [current.stats.current < fastest.stats.current] *)
Definition faster (current fastest : Provider.t) : bool :=
  match Stats.current (Provider.stats current), Stats.current (Provider.stats fastest) with
  | Some c, Some f => JS.lt c f
  | _, _ => false
  end.

(** [online.reduce(...)] without an initial value starts from the first
    element. *)
Definition getFastestProvider (m : Monitor.t) : option Provider.t :=
  let online := filter (fun p => has_current p = true) (Monitor.providers m) in
  match online with
  | [] => None
  | first :: rest =>
      Some (foldl (fun fastest current =>
                     if faster current fastest then current else fastest)
              first rest)
  end.

(** ** [clearStats] *)

Fixpoint clear_each (h : heap) (providers : list Provider.t) : heap * list Provider.t :=
  match providers with
  | [] => (h, [])
  | provider :: providers =>
      let '(h, a) := Arr.alloc h in
      let provider := Provider.set_stats (Stats.initial a) provider in
      let provider := Provider.set_status idle provider in
      let '(h, providers) := clear_each h providers in
      (h, provider :: providers)
  end.

Definition clearStats (h : heap) (m : Monitor.t) : heap * Monitor.t :=
  let '(h, providers) := clear_each h (Monitor.providers m) in
  (h, Monitor.set_totalTests (JS.Fin 0) (Monitor.set_providers providers m)).

(** ** Sequences of calls *)

(** One call of [updateStats]: the latency, the success flag and the
    reading of [Date.now()]. *)
Definition Call : Set := (JS.value * bool * Z)%type.

Definition apply_updates (h : heap) (p : Provider.t) (calls : list Call)
    : heap * Provider.t :=
  foldl (fun hp '(latency, success, now) => updateStats hp.1 hp.2 latency success now)
    (h, p) calls.

(** A provider as the constructor makes it, in the store that holds its
    empty history. *)
Definition fresh_provider (c : Config.t) : heap * Provider.t :=
  ([[]], Provider.mk c (Stats.initial 0%nat) idle).

(** [stats.count == stats.successes + stats.failures] *)
Definition count_invariant (s : Stats.t) : Prop :=
  JS.seq (Stats.count s) (JS.add (Stats.successes s) (Stats.failures s)) = true.

(** The call recorded a failure: both counters moved by one, [current] is
    [null], nothing else changed. *)
Definition recorded_as_failure (h : heap) (p : Provider.t) (r : heap * Provider.t) : Prop :=
  let s := Provider.stats p in
  let s' := Provider.stats r.2 in
  Stats.count s' = JS.add (Stats.count s) (JS.Fin 1) /\
  Stats.failures s' = JS.add (Stats.failures s) (JS.Fin 1) /\
  Stats.current s' = None /\
  Stats.successes s' = Stats.successes s /\
  Stats.min s' = Stats.min s /\
  Stats.max s' = Stats.max s /\
  Stats.avg s' = Stats.avg s /\
  Stats.total s' = Stats.total s /\
  Stats.history s' = Stats.history s /\
  r.1 = h.

(** [typeof latency === 'number'] and [latency] is finite. *)
Definition finite_number (v : JS.value) : bool :=
  match v with
  | JS.VNum (JS.Fin _) => true
  | _ => false
  end.

(** [typeof latency === 'number' && !isNaN(latency)] *)
Definition number_not_NaN (v : JS.value) : bool :=
  match v with
  | JS.VNum n => negb (JS.isNaN n)
  | _ => false
  end.

(** The stats fields after a call that records a success with latency
    [l], and the array that received the sample. *)
Definition folded (s : Stats.t) (l : JS.num) : Stats.t :=
  let successes := JS.add (JS.or (Stats.successes s) (JS.Fin 0)) (JS.Fin 1) in
  let total := JS.add (JS.or (Stats.total s) (JS.Fin 0)) l in
  Stats.mk (Some l)
    (JS.min (JS.or (Stats.min s) JS.PInf) l)
    (JS.max (JS.or (Stats.max s) (JS.Fin 0)) l)
    (if JS.gt successes (JS.Fin 0) then JS.round_div total successes else Stats.avg s)
    total
    (JS.add (JS.or (Stats.count s) (JS.Fin 0)) (JS.Fin 1))
    successes
    (Stats.failures s)
    (Stats.history s).

Definition pushed (h : heap) (a : loc) (x : Sample) : heap :=
  let h := Arr.push h a x in
  if (100 <? Arr.length h a)%nat then Arr.shift h a else h.

(** ** The registry of providers.js *)

Definition provider_config (id name endpoint pingPath color : string) : Config.t :=
  Config.mk (Some id) (Some name) (Some endpoint) (Some pingPath) (Some color) false.

Definition openai : Config.t :=
  provider_config "openai" "OpenAI" "https://api.openai.com" "/v1/models" "#10a37f".
Definition anthropic : Config.t :=
  provider_config "anthropic" "Anthropic (Claude)" "https://api.anthropic.com" "/v1/models"
    "#d4a373".
Definition google : Config.t :=
  provider_config "google" "Google AI" "https://generativelanguage.googleapis.com"
    "/v1beta/models" "#4285f4".
Definition azure : Config.t :=
  provider_config "azure" "Azure OpenAI" "https://azure.microsoft.com" "/" "#0078d4".
Definition cohere : Config.t :=
  provider_config "cohere" "Cohere" "https://api.cohere.ai" "/v1/models" "#39594d".
Definition huggingface : Config.t :=
  provider_config "huggingface" "Hugging Face" "https://api-inference.huggingface.co" "/"
    "#ff9d0b".

Definition API_PROVIDERS : list (option Config.t) :=
  [Some openai; Some anthropic; Some google; Some azure; Some cohere; Some huggingface].

(** ** The statistics of a sequence of probes

    Successful probes, each a latency in milliseconds with the reading of
    [Date.now()] at its end, as [testProvider] hands them to
    [updateStats]. *)
Definition successful (probes : list (Z * Z)) : list Call :=
  map (fun '(l, now) => (JS.VNum (JS.Fin l), true, now)) probes.

Definition latencies (probes : list (Z * Z)) : list Z := map fst probes.

Definition sum (ls : list Z) : Z := foldr Z.add 0 ls.

Definition is_min (m : Z) (ls : list Z) : Prop :=
  m ∈ ls /\ Forall (fun x => m <= x) ls.

Definition is_max (m : Z) (ls : list Z) : Prop :=
  m ∈ ls /\ Forall (fun x => x <= m) ls.

(** [a] is [s / n] rounded to the nearest integer, a half rounded up. *)
Definition is_rounded_mean (a s n : Z) : Prop :=
  2 * s - n < 2 * n * a <= 2 * s + n.

(** The counters, the mean and the maximum of C1. *)
Definition tallies (s : Stats.t) (ls : list Z) : Prop :=
  let n := Z.of_nat (length ls) in
  Stats.count s = JS.Fin n /\
  Stats.successes s = JS.Fin n /\
  Stats.failures s = JS.Fin 0 /\
  Stats.total s = JS.Fin (sum ls) /\
  (exists a, Stats.avg s = JS.Fin a /\ is_rounded_mean a (sum ls) n) /\
  (exists m, Stats.max s = JS.Fin m /\ is_max m ls).

(** The minimum of C1. *)
Definition has_min (s : Stats.t) (ls : list Z) : Prop :=
  exists m, Stats.min s = JS.Fin m /\ is_min m ls.

(** The samples that a sequence of calls records: one for every call with
    [success] and a latency that is a number and not [NaN]. *)
Definition sample_of (c : Call) : option Sample :=
  match c with
  | (JS.VNum l, true, now) => if JS.isNaN l then None else Some (mkSample now l)
  | _ => None
  end.

Definition samples (calls : list Call) : list Sample := omap sample_of calls.

(** The last [n] elements of a list, in order. *)
Definition lastn {A} (n : nat) (l : list A) : list A := drop (length l - n) l.

(** The running state of the counters, the total and the maximum after
    successes with latencies [ls]. *)
Definition running (s : Stats.t) (ls : list Z) : Prop :=
  let n := Z.of_nat (length ls) in
  Stats.count s = JS.Fin n /\
  Stats.successes s = JS.Fin n /\
  Stats.failures s = JS.Fin 0 /\
  Stats.total s = JS.Fin (sum ls) /\
  ((ls = [] /\ Stats.max s = JS.Fin 0) \/ exists m, Stats.max s = JS.Fin m /\ is_max m ls).

Definition running_min (s : Stats.t) (ls : list Z) : Prop :=
  (ls = [] /\ Stats.min s = JS.PInf) \/ has_min s ls.

(** No provider's [current] is [NaN]: [updateStats] stores a latency only
    after [!isNaN(latency)]. *)
Definition current_not_NaN (p : Provider.t) : Prop :=
  Stats.current (Provider.stats p) <> Some JS.NaN.

(** [f] is the first fastest provider of [before ++ f :: after]: it has a
    [current], the providers before it are slower, those after it are not
    faster. *)
Definition first_fastest (before : list Provider.t) (f : Provider.t) (after : list Provider.t)
    : Prop :=
  exists c, Stats.current (Provider.stats f) = Some c /\
    Forall (fun q => forall d, Stats.current (Provider.stats q) = Some d -> JS.lt c d = true)
      before /\
    Forall (fun q => forall d, Stats.current (Provider.stats q) = Some d -> JS.lt d c = false)
      after.

(** ** The registry check: [validateProviders]

    The function changes nothing; it writes to the console.  A message is
    kept by its kind, the index of the entry and, for missing fields,
    their names. *)

Inductive Diagnostic : Set :=
| NullEntry (index : nat)                              (* console.error *)
| MissingFields (index : nat) (missing : list string)  (* console.error *)
| InvalidEndpoint (index : nat)                        (* console.error *)
| InvalidColor (index : nat).                          (* console.warn *)

Definition requiredFields : list string := ["id"; "name"; "endpoint"; "pingPath"; "color"].

(** [provider[field]] for a required field. *)
Definition field (provider : Config.t) (f : string) : option string :=
  if String.eqb f "id" then Config.id provider
  else if String.eqb f "name" then Config.name provider
  else if String.eqb f "endpoint" then Config.endpoint provider
  else if String.eqb f "pingPath" then Config.pingPath provider
  else if String.eqb f "color" then Config.color provider
  else None.

Definition is_hex (c : Ascii.ascii) : bool :=
  let n := Ascii.nat_of_ascii c in
  ((48 <=? n) && (n <=? 57) || (65 <=? n) && (n <=? 70) || (97 <=? n) && (n <=? 102))%nat.

(** [/^#[0-9A-Fa-f]{6}$/.test(color)] *)
Definition color_format (color : string) : bool :=
  match color with
  | String (Ascii.Ascii true true false false false true false false) digits =>
      (String.length digits =? 6)%nat && forallb is_hex (String.list_ascii_of_string digits)
  | _ => false
  end.

Definition validate_entry (index : nat) (entry : option Config.t) : list Diagnostic :=
  match entry with
  | None => [NullEntry index]
  | Some provider =>
      let missing :=
        List.filter (fun f => negb (truthy_str (field provider f))) requiredFields in
      (if (0 <? length missing)%nat then [MissingFields index missing] else [])
      ++ (match Config.endpoint provider with
          | Some endpoint =>
              if truthy_str (Some endpoint) && negb (String.prefix "http" endpoint)
              then [InvalidEndpoint index] else []
          | None => []
          end)
      ++ (match Config.color provider with
          | Some color =>
              if truthy_str (Some color) && negb (color_format color)
              then [InvalidColor index] else []
          | None => []
          end)
  end.

Definition validateProviders (registry : list (option Config.t)) : list Diagnostic :=
  concat (imap validate_entry registry).

(** Every structurally required field of a provider is truthy. *)
Definition well_configured (c : Config.t) : bool :=
  forallb (fun f => truthy_str (field c f)) requiredFields.

(** ** Example states *)

(** A registry record whose [id] is empty. *)
Definition empty_id : Config.t :=
  Config.mk (Some "") (Some "Local") (Some "http://localhost:8080") (Some "/") (Some "#123456")
    false.

Definition with_current (c : Config.t) (a : loc) (v : option JS.num) (st : Status)
    : Provider.t :=
  Provider.mk c (Stats.set_current v (Stats.initial a)) st.

(** Two providers tied at 120 ms and a third without a value. *)
Definition tie_monitor : Monitor.t :=
  Monitor.mk
    [ with_current openai 0%nat (Some (JS.Fin 120)) online;
      with_current anthropic 1%nat (Some (JS.Fin 120)) online;
      with_current google 2%nat None offline ]
    false None "ping" (JS.Fin 1) true.

(** ** Observations used in the statements *)

(** The network call was aborted by the timeout. *)
Definition aborted (fetch : result unit) : bool :=
  match fetch with
  | Throw e => String.eqb (err_name e) "AbortError"
  | Return _ => false
  end.

(** The monitor's provider state as a reader sees it: every provider with
    the contents of its history array. *)
Definition internal_state (h : heap) (m : Monitor.t) : list (Provider.t * list Sample) :=
  map (fun p => (p, Arr.elems h (Stats.history (Provider.stats p)))) (Monitor.providers m).

(** What a holder of a snapshot record can do to the array that its
    [stats.history] designates: [snapshot.stats.history.push(x)]. *)
Definition snapshot_history_push (h : heap) (snap : Snapshot.t) (x : Sample) : heap :=
  Arr.push h (Stats.history (Snapshot.stats snap)) x.

(** The probe of a provider succeeds: the measurement returns [true] with
    a latency. *)
Definition probe_succeeds (testMode : string) (pr : Probe) (p : Provider.t) : bool :=
  match measure testMode pr p with
  | Return (true, _) => true
  | _ => false
  end.

(** A round over three providers in which the second probe times out. *)
Definition timeout_round (i : nat) : Probe :=
  match i with
  | 1%nat => mkProbe true (JS.Fin 10001) true (Throw (mkError "AbortError")) 1700000010001
  | _ => mkProbe true (JS.Fin 120) true (Return tt) 1700000000120
  end.

Definition three_providers : State :=
  let '(h, m) := constructor [] (Some [Some openai; Some anthropic; Some google]) in
  mkState h (setUpdateCallback true m) [].

(** ** The invariant of a round

    In a round started in [s0]: a provider not yet dispatched is as it was,
    a pending one is marked [testing], a settled one is what its own probe
    made of it; the counter moves with the join and not before. *)
Definition round_inv (probes : nat -> Probe) (s0 : State) (r : Round) : Prop :=
  let ps0 := Monitor.providers (monitor s0) in
  let ps := Monitor.providers (monitor (state r)) in
  let mode := Monitor.testMode (monitor s0) in
  length ps = length ps0 /\
  Monitor.testMode (monitor (state r)) = mode /\
  (dispatched r <= length ps0)%nat /\
  NoDup (pending r) /\
  Forall (fun i => (i < dispatched r)%nat) (pending r) /\
  (if joined r
   then Monitor.totalTests (monitor (state r))
          = JS.add (Monitor.totalTests (monitor s0)) (JS.Fin 1) /\
        dispatched r = length ps0 /\ pending r = []
   else Monitor.totalTests (monitor (state r)) = Monitor.totalTests (monitor s0)) /\
  forall i p0, ps0 !! i = Some p0 ->
    ((dispatched r <= i)%nat -> ps !! i = Some p0) /\
    (i ∈ pending r -> ps !! i = Some (Provider.set_status testing p0)) /\
    ((i < dispatched r)%nat -> i ∉ pending r ->
     exists h, ps !! i
               = Some (settle_provider h mode (probes i) (Provider.set_status testing p0)).2).

(** ** The query surface: [getAverageLatency] *)

(** [sum + p.stats.current]; a [null] would add as 0. *)
Definition add_current (sum : JS.num) (p : Provider.t) : JS.num :=
  match Stats.current (Provider.stats p) with
  | Some c => JS.add sum c
  | None => JS.add sum (JS.Fin 0)
  end.

(** [Math.round(x)] is [NaN] exactly when [x] is, so [isNaN(avg)] is read
    off the rounded quotient. *)
Definition getAverageLatency (m : Monitor.t) : option JS.num :=
  let online := filter (fun p => has_current p = true) (Monitor.providers m) in
  match online with
  | [] => None
  | _ =>
      let total := foldl add_current (JS.Fin 0) online in
      let avg := JS.round_div total (JS.Fin (Z.of_nat (length online))) in
      if JS.isNaN avg then None else Some avg
  end.

(** The latencies that the providers currently show, in registry order. *)
Definition currents (m : Monitor.t) : list JS.num :=
  omap (fun p => Stats.current (Provider.stats p)) (Monitor.providers m).

(** A monitor in which three providers show 100, 200 and nothing. *)
Definition mixed_monitor : Monitor.t :=
  Monitor.mk
    [ with_current openai 0%nat (Some (JS.Fin 100)) online;
      with_current anthropic 1%nat (Some (JS.Fin 200)) online;
      with_current google 2%nat None offline ]
    false None "ping" (JS.Fin 1) true.

(** [clearStats] on a state. *)
Definition clearStats_state (s : State) : State :=
  let '(h, m) := clearStats (store s) (monitor s) in
  mkState h m (notified s).

(** The counters after a sequence of calls of which [k] recorded a
    failure and the others recorded the latencies [ls]. *)
Definition counted (s : Stats.t) (k : nat) (ls : list JS.num) : Prop :=
  Stats.count s = JS.Fin (Z.of_nat (k + length ls)) /\
  Stats.successes s = JS.Fin (Z.of_nat (length ls)) /\
  Stats.failures s = JS.Fin (Z.of_nat k).

(** The total, the mean and the maximum over the recorded latencies [ls],
    whatever failures came in between. *)
Definition aggregated (s : Stats.t) (ls : list Z) : Prop :=
  Stats.successes s = JS.Fin (Z.of_nat (length ls)) /\
  Stats.total s = JS.Fin (sum ls) /\
  match ls with
  | [] => Stats.avg s = JS.Fin 0 /\ Stats.max s = JS.Fin 0 /\ Stats.min s = JS.PInf
  | _ => (exists a, Stats.avg s = JS.Fin a /\
                    is_rounded_mean a (sum ls) (Z.of_nat (length ls))) /\
         (exists m, Stats.max s = JS.Fin m /\ is_max m ls)
  end.

(** The latency that the last call of a sequence recorded, if it recorded
    one. *)
Definition last_recorded (calls : list Call) : option JS.num :=
  match last calls with
  | Some c => latency <$> sample_of c
  | None => None
  end.

(** Three probes: a success of 120 ms, a timeout, a success of 80 ms. *)
Definition mixed_calls : list Call :=
  [ (JS.VNum (JS.Fin 120), true, 1700000000120);
    (JS.VNull, false, 1700000010000);
    (JS.VNum (JS.Fin 80), true, 1700000020080) ].

(** ** The outcome of a probe *)

(** The network call counts as reachable: with [AbortController] every
    outcome but the abort, without it only a resolved [fetch]. *)
Definition ping_reaches (pr : Probe) : bool :=
  if abortController pr
  then negb (aborted (fetch pr))
  else match fetch pr with Return _ => true | Throw _ => false end.

(** The measured time is a latency: not [NaN] and not negative. *)
Definition valid_elapsed (pr : Probe) : bool :=
  negb (JS.isNaN (elapsed pr)) && negb (JS.lt (elapsed pr) (JS.Fin 0)).

(** A probe that measures 120 ms on a resolved [fetch], and one that is
    aborted by the timeout. *)
Definition probe_120 : Probe := mkProbe true (JS.Fin 120) true (Return tt) 1700000000120.
Definition probe_timeout : Probe :=
  mkProbe true (JS.Fin 10001) true (Throw (mkError "AbortError")) 1700000010001.

(** ** The states that the monitor reaches

    From the constructor, by the monitor's own operations: registering a
    callback, dispatching and settling probes in any order (rounds may
    overlap), counting a round, clearing the statistics. *)
Inductive reachable : State -> Prop :=
| reach_constructor h registry :
    reachable (mkState (constructor h registry).1 (constructor h registry).2 [])
| reach_setUpdateCallback s callback :
    reachable s ->
    reachable (mkState (store s) (setUpdateCallback callback (monitor s)) (notified s))
| reach_dispatch s i :
    reachable s -> reachable (testProvider_dispatch i s)
| reach_settle s i pr :
    reachable s -> reachable (testProvider_settle i pr s)
| reach_join s :
    reachable s -> reachable (increment_totalTests s)
| reach_clearStats s :
    reachable s -> reachable (clearStats_state s).

(** Every provider has a history array of its own, of at most 100
    samples. *)
Definition own_history (h : heap) (ps : list Provider.t) : Prop :=
  NoDup ((fun p => Stats.history (Provider.stats p)) <$> ps) /\
  Forall (fun p => exists xs, h !! Stats.history (Provider.stats p) = Some xs /\
                              (length xs <= 100)%nat) ps.

(** The statistics of a provider are sound: the counters are natural
    numbers that add up, [current] is not [NaN], an online provider shows a
    latency, an offline one shows none, and an idle one has the initial
    statistics. *)
Definition sound_stats (p : Provider.t) : Prop :=
  let s := Provider.stats p in
  (exists ns nf : nat,
     Stats.successes s = JS.Fin (Z.of_nat ns) /\
     Stats.failures s = JS.Fin (Z.of_nat nf) /\
     Stats.count s = JS.Fin (Z.of_nat (ns + nf))) /\
  current_not_NaN p /\
  (Provider.status p = online -> exists l, Stats.current s = Some l) /\
  (Provider.status p = offline -> Stats.current s = None) /\
  (Provider.status p = idle -> s = Stats.initial (Stats.history s)).

(** The three providers after a first successful probe of the first one. *)
Definition after_first_probe : State := testProvider 0 probe_120 three_providers.

(** ** The notifications of a round *)

(** Every [complete] event comes after the [testing] event of the same
    provider. *)
Definition testing_first (evs : list (Event * nat)) : Prop :=
  forall k i, evs !! k = Some (ev_complete, i) ->
    exists j, (j < k)%nat /\ evs !! j = Some (ev_testing, i).

(** The events of a round, by the probes dispatched and those pending:
    with a callback, one [testing] event for every dispatched probe and
    one [complete] event for every settled one; without one, none. *)
Definition round_events (callback : bool) (r : Round) (evs : list (Event * nat)) : Prop :=
  if callback
  then NoDup evs /\
       (forall i, (ev_testing, i) ∈ evs <-> (i < dispatched r)%nat) /\
       (forall i, (ev_complete, i) ∈ evs <-> (i < dispatched r)%nat /\ i ∉ pending r) /\
       testing_first evs
  else evs = [].

(** ** Valid registries *)

(** An entry that [validateProviders] has nothing to say about: a record
    with every required field, an endpoint that starts with [http] and a
    colour of six hexadecimal digits. *)
Definition valid_entry (entry : option Config.t) : bool :=
  match entry with
  | None => false
  | Some c =>
      well_configured c
      && match Config.endpoint c with Some e => String.prefix "http" e | None => false end
      && match Config.color c with Some col => color_format col | None => false end
  end.

(** ** The scheduler: [start] and [stop]

    [parseInt(string, 10)]: leading white space is skipped, a sign is
    read, then the decimal digits up to the first other character; with no
    digit the result is [NaN], and otherwise the Number value of the
    integer read.  A string is a sequence of code units below 256, of
    which the white space is TAB, LF, VT, FF, CR, the space and the
    no-break space. *)

(** The Number value of an integer: the integer itself below [2^53] in
    magnitude, and otherwise the nearest double, a tie going to the even
    significand; from [2^1024 - 2^970] on it is an infinity. *)
Definition number_of (z : Z) : JS.num :=
  let a := Z.abs z in
  if a <? 2 ^ 53 then JS.Fin z
  else
    let e := Z.log2 a - 52 in
    let q := a / 2 ^ e in
    let r := a mod 2 ^ e in
    let half := 2 ^ (e - 1) in
    let q := if (half <? r) || ((r =? half) && Z.odd q) then q + 1 else q in
    let m := q * 2 ^ e in
    if 2 ^ 1024 <=? m then (if z <? 0 then JS.NInf else JS.PInf)
    else JS.Fin (Z.sgn z * m).

Definition is_space (c : Ascii.ascii) : bool :=
  let n := Ascii.nat_of_ascii c in
  ((9 <=? n) && (n <=? 13) || (n =? 32) || (n =? 160))%nat.

Definition digit (c : Ascii.ascii) : option Z :=
  let n := Ascii.nat_of_ascii c in
  if ((48 <=? n) && (n <=? 57))%nat then Some (Z.of_nat (n - 48)) else None.

Fixpoint trim_start (s : string) : string :=
  match s with
  | String c rest => if is_space c then trim_start rest else s
  | EmptyString => s
  end.

(** The value of the longest prefix of digits, [None] when it is empty. *)
Fixpoint digits (s : string) (acc : option Z) : option Z :=
  match s with
  | String c rest =>
      match digit c with
      | Some d => digits rest (Some (10 * default 0 acc + d))
      | None => acc
      end
  | EmptyString => acc
  end.

Definition parseInt (s : string) : JS.num :=
  let s := trim_start s in
  let '(sign, s) :=
    match s with
    | String c rest =>
        if (Ascii.nat_of_ascii c =? 45)%nat then (-1, rest)
        else if (Ascii.nat_of_ascii c =? 43)%nat then (1, rest)
        else (1, s)
    | EmptyString => (1, s)
    end in
  match digits s None with
  | Some z => number_of (sign * z)
  | None => JS.NaN
  end.

(** The decimal numeral of an integer, as [String(n)] writes it: the
    digits, after [-] for a negative one. *)
Definition digit_char (d : Z) : Ascii.ascii := Ascii.ascii_of_nat (48 + Z.to_nat d).

Fixpoint numeral (fuel : nat) (n : Z) (rest : string) : string :=
  match fuel with
  | O => rest
  | S fuel =>
      let rest := String (digit_char (n mod 10)) rest in
      if n <? 10 then rest else numeral fuel (n / 10) rest
  end.

Definition decimal (n : Z) : string :=
  if n <? 0
  then String (Ascii.ascii_of_nat 45) (numeral (S (Z.to_nat (Z.log2 (- n)))) (- n) "")
  else numeral (S (Z.to_nat (Z.log2 n))) n "".

(** [a <= b] *)
Definition js_le (a b : JS.num) : bool :=
  negb (JS.isNaN a) && negb (JS.isNaN b) && negb (JS.lt b a).

(** The interval timers of the page: the armed ones, each with its handle
    and period, and the next handle that [setInterval] returns.  Handles
    are positive. *)
Record Timers : Set := mkTimers {
  armed : list (nat * JS.num);
  next_handle : nat
}.

(** The monitor in its page: whether the Performance API is there, the
    timers, and the number of rounds launched so far. *)
Record World : Set := mkWorld {
  world_state : State;
  performance_api : bool;
  timers : Timers;
  launched : nat
}.

Definition set_isMonitoring (v : bool) (m : Monitor.t) : Monitor.t :=
  Monitor.mk (Monitor.providers m) v (Monitor.monitoringInterval m) (Monitor.testMode m)
    (Monitor.totalTests m) (Monitor.onUpdate m).
Definition set_monitoringInterval (v : option nat) (m : Monitor.t) : Monitor.t :=
  Monitor.mk (Monitor.providers m) (Monitor.isMonitoring m) v (Monitor.testMode m)
    (Monitor.totalTests m) (Monitor.onUpdate m).
Definition set_testMode (v : string) (m : Monitor.t) : Monitor.t :=
  Monitor.mk (Monitor.providers m) (Monitor.isMonitoring m) (Monitor.monitoringInterval m) v
    (Monitor.totalTests m) (Monitor.onUpdate m).

Definition set_monitor (m : Monitor.t) (s : State) : State :=
  mkState (store s) m (notified s).

(** A probe in a page without the Performance API: [testProvider] throws
    before its first [await] and runs to its end at once. *)
Definition no_performance : Probe := mkProbe false JS.NaN false (Return tt) 0.

(** What a call [this.runTests()] does before it returns its promise:
    every probe runs up to its first [await]. *)
Definition runTests_call (performance_api : bool) (s : State) : State :=
  foldl (fun s i =>
           if performance_api then testProvider_dispatch i s
           else testProvider i no_performance s)
    s (seq 0 (length (Monitor.providers (monitor s)))).

Definition launch (w : World) : World :=
  mkWorld (runTests_call (performance_api w) (world_state w)) (performance_api w)
    (timers w) (S (launched w)).

(** [start(intervalMs, testMode = 'ping')] *)
Definition start (intervalMs : string) (testMode : option string) (w : World) : World :=
  let m := monitor (world_state w) in
  if Monitor.isMonitoring m then w
  else
    let m := set_isMonitoring true m in
    let m := set_testMode (default "ping" testMode) m in
    (* Run immediate test *)
    let w := launch (mkWorld (set_monitor m (world_state w)) (performance_api w)
                       (timers w) (launched w)) in
    (* Set up interval if not manual *)
    if negb (String.eqb intervalMs "manual") then
      let interval := parseInt intervalMs in
      if JS.isNaN interval || js_le interval (JS.Fin 0) then w
      else
        let handle := next_handle (timers w) in
        let m := set_monitoringInterval (Some handle) (monitor (world_state w)) in
        mkWorld (set_monitor m (world_state w)) (performance_api w)
          (mkTimers (armed (timers w) ++ [(handle, interval)]) (S handle))
          (launched w)
    else w.

(** [stop()]; the handle is cleared when it is truthy. *)
Definition stop (w : World) : World :=
  let m := set_isMonitoring false (monitor (world_state w)) in
  match Monitor.monitoringInterval m with
  | Some handle =>
      if negb (handle =? 0)%nat then
        mkWorld (set_monitor (set_monitoringInterval None m) (world_state w))
          (performance_api w)
          (mkTimers (filter (fun t => t.1 <> handle) (armed (timers w)))
             (next_handle (timers w)))
          (launched w)
      else
        mkWorld (set_monitor m (world_state w)) (performance_api w) (timers w) (launched w)
  | None =>
      mkWorld (set_monitor m (world_state w)) (performance_api w) (timers w) (launched w)
  end.

(** The timer with the given handle fires: its callback runs
    [this.runTests()]. *)
Definition tick (handle : nat) (w : World) : World :=
  if existsb (fun t => (t.1 =? handle)%nat) (armed (timers w)) then launch w else w.

(** What happens to the monitor in its page. *)
Inductive Action : Set :=
| Start (intervalMs : string) (testMode : option string)
| Stop
| Tick (handle : nat)
| Settle (i : nat) (pr : Probe)
| Join
| ClearStats.

Definition on_state (f : State -> State) (w : World) : World :=
  mkWorld (f (world_state w)) (performance_api w) (timers w) (launched w).

Definition act (w : World) (a : Action) : World :=
  match a with
  | Start intervalMs testMode => start intervalMs testMode w
  | Stop => stop w
  | Tick handle => tick handle w
  | Settle i pr => on_state (testProvider_settle i pr) w
  | Join => on_state increment_totalTests w
  | ClearStats => on_state clearStats_state w
  end.

(** The page after loading: the monitor as constructed, no timer armed. *)
Definition loaded (performance_api : bool) (registry : option (list (option Config.t)))
    (next_handle : nat) : World :=
  mkWorld (mkState (constructor [] registry).1 (constructor [] registry).2 [])
    performance_api (mkTimers [] (S next_handle)) 0.

(** At most one timer is armed, the one whose handle the monitor holds,
    with a positive period, and only while monitoring. *)
Definition one_timer (w : World) : Prop :=
  let m := monitor (world_state w) in
  (0 < next_handle (timers w))%nat /\
  match Monitor.monitoringInterval m with
  | None => armed (timers w) = []
  | Some handle =>
      (0 < handle < next_handle (timers w))%nat /\
      Monitor.isMonitoring m = true /\
      exists period, JS.lt (JS.Fin 0) period = true /\ armed (timers w) = [(handle, period)]
  end.

(** The scheduler's part of the monitor: the running flag, the timer
    handle and the test mode. *)
Definition flags (s : State) : bool * option nat * string :=
  (Monitor.isMonitoring (monitor s), Monitor.monitoringInterval (monitor s),
   Monitor.testMode (monitor s)).

(** The page with the three providers, loaded and started every five
    seconds. *)
Definition started_world : World :=
  start "5000" (Some "ping") (loaded true (Some [Some openai; Some anthropic; Some google]) 0).

(** The period that [start] arms a timer with: none for [manual] and for
    an interval that does not parse to a positive number. *)
Definition period (intervalMs : string) : option JS.num :=
  if String.eqb intervalMs "manual" then None
  else match parseInt intervalMs with
       | JS.Fin z => if 0 <? z then Some (JS.Fin z) else None
       | JS.PInf => Some JS.PInf
       | JS.NInf | JS.NaN => None
       end.

(** ** The chart: what [LatencyChart.draw] computes

    The chart holds the monitor's provider array and reads the histories
    as they are when it draws. *)

(** The value that [setDataRange(range)] assigns to [this.dataRange]. *)
Definition setDataRange (range : string) : JS.num :=
  if String.eqb range "all" then JS.PInf
  else
    let parsed := parseInt range in
    if JS.isNaN parsed || js_le parsed (JS.Fin 0) then JS.Fin 20 else parsed.

(** A data range that [setDataRange] can leave: [Infinity] or a positive
    number; the constructor's is 20. *)
Definition valid_range (dataRange : JS.num) : Prop :=
  dataRange = JS.PInf \/ exists z, dataRange = JS.Fin z /\ 0 < z.

(** [array.slice(-k)] *)
Definition slice_last {A} (k : JS.num) (l : list A) : list A :=
  match k with
  | JS.Fin z => if 0 <? z then lastn (Z.to_nat z) l else drop (Z.to_nat (- z)) l
  | JS.PInf => l
  | JS.NInf => []
  | JS.NaN => l
  end.

(** [Math.max(...lengths, 1)] over the providers whose history is an
    array. *)
Definition maxDataPoints (h : heap) (providers : list Provider.t) : nat :=
  foldr Nat.max 1%nat
    (map (fun p => Arr.length h (Stats.history (Provider.stats p)))
       (List.filter (fun p => Arr.isArray h (Stats.history (Provider.stats p))) providers)).

(** [Math.min(maxDataPoints, this.dataRange)] *)
Definition displayPoints (h : heap) (providers : list Provider.t) (dataRange : JS.num)
    : JS.num :=
  JS.min (JS.Fin (Z.of_nat (maxDataPoints h providers))) dataRange.

(** The inner loop over the points of one history. *)
Definition scan_history (maxLatency : JS.num) (history : list Sample) : JS.num :=
  foldl (fun m point => if JS.gt (latency point) m then latency point else m)
    maxLatency history.

(** The highest latency among the displayed points, from 0. *)
Definition highest_latency (h : heap) (providers : list Provider.t) (displayPoints : JS.num)
    : JS.num :=
  foldl (fun m p =>
           if Arr.isArray h (Stats.history (Provider.stats p))
           then scan_history m
                  (slice_last displayPoints (Arr.elems h (Stats.history (Provider.stats p))))
           else m)
    (JS.Fin 0) providers.

(** [Math.ceil(x / 100) * 100] *)
Definition ceil_hundreds (x : JS.num) : JS.num :=
  match x with
  | JS.Fin z => JS.Fin (- ((- z) / 100) * 100)
  | _ => x
  end.

(** The top of the latency axis: [Math.ceil(maxLatency / 100) * 100 || 1000]. *)
Definition axis_max (h : heap) (providers : list Provider.t) (displayPoints : JS.num)
    : JS.num :=
  JS.or (ceil_hundreds (highest_latency h providers displayPoints)) (JS.Fin 1000).

(** The points of a provider that the chart displays. *)
Definition displayed (h : heap) (dataRange : JS.num) (providers : list Provider.t)
    (p : Provider.t) : list Sample :=
  slice_last (displayPoints h providers dataRange)
    (Arr.elems h (Stats.history (Provider.stats p))).

(** Every sample of every provider's history has a finite latency. *)
Definition finite_histories (h : heap) (providers : list Provider.t) : Prop :=
  Forall (fun p => Forall (fun x => exists z, latency x = JS.Fin z)
                     (Arr.elems h (Stats.history (Provider.stats p))))
    providers.

(** * Properties *)

(** ** Arithmetic of the counters *)

Lemma add_or_zero (a : JS.num) :
  a <> JS.NaN -> JS.add (JS.or a (JS.Fin 0)) (JS.Fin 1) = JS.add a (JS.Fin 1).
Proof.
  destruct a as [z| | |]; intros Ha; try reflexivity; [|congruence].
  unfold JS.or; simpl. destruct (Z.eqb_spec z 0) as [->|]; reflexivity.
Qed.

Lemma or_zero_fin (z : Z) : JS.or (JS.Fin z) (JS.Fin 0) = JS.Fin z.
Proof. unfold JS.or; simpl. destruct (Z.eqb_spec z 0) as [->|]; reflexivity. Qed.

Lemma count_invariant_not_NaN (s : Stats.t) :
  count_invariant s ->
  Stats.count s <> JS.NaN /\ Stats.successes s <> JS.NaN /\ Stats.failures s <> JS.NaN.
Proof.
  unfold count_invariant.
  destruct (Stats.count s), (Stats.successes s), (Stats.failures s);
    simpl; intros H; repeat split; congruence.
Qed.

(** The fields of the stats after a call that records a failure. *)
Lemma updateStats_failure h p latency success now :
  success && number_not_NaN latency = false ->
  updateStats h p latency success now =
    (h, Provider.set_stats
          (Stats.set_current None
             (Stats.set_failures
                (JS.add (JS.or (Stats.failures (Provider.stats p)) (JS.Fin 0)) (JS.Fin 1))
                (Stats.set_count
                   (JS.add (JS.or (Stats.count (Provider.stats p)) (JS.Fin 0)) (JS.Fin 1))
                   (Provider.stats p)))) p).
Proof.
  unfold updateStats, number_not_NaN.
  destruct latency as [| | |l|]; try reflexivity.
  intros ->. reflexivity.
Qed.

Lemma updateStats_success h p l success now :
  success && negb (JS.isNaN l) = true ->
  updateStats h p (JS.VNum l) success now =
    if Arr.isArray h (Stats.history (Provider.stats p))
    then (pushed h (Stats.history (Provider.stats p)) (mkSample now l),
          Provider.set_stats (folded (Provider.stats p) l) p)
    else (pushed (h ++ [[]]) (length h) (mkSample now l),
          Provider.set_stats (Stats.set_history (length h) (folded (Provider.stats p) l)) p).
Proof.
  intros Hc. unfold updateStats. rewrite Hc.
  destruct p as [c s st]. destruct s as [cur mn mx av tot cnt suc fl hist].
  unfold folded, pushed.
  cbn -[JS.gt JS.add JS.or JS.min JS.max JS.round_div Arr.isArray Arr.push Arr.shift
        Arr.length Nat.ltb].
  destruct (JS.gt _ _);
    cbn -[JS.gt JS.add JS.or JS.min JS.max JS.round_div Arr.isArray Arr.push Arr.shift
          Arr.length Nat.ltb];
    destruct (Arr.isArray h hist); reflexivity.
Qed.

Lemma seq_add_one (c a b : JS.num) :
  JS.seq c (JS.add a b) = true ->
  JS.seq (JS.add c (JS.Fin 1)) (JS.add (JS.add a (JS.Fin 1)) b) = true /\
  JS.seq (JS.add c (JS.Fin 1)) (JS.add a (JS.add b (JS.Fin 1))) = true.
Proof.
  destruct c, a, b; simpl; intros H; try discriminate; split; try reflexivity;
    apply Z.eqb_eq in H; apply Z.eqb_eq; lia.
Qed.

(** One call moves [count] by one, with one of the two other counters. *)
Lemma updateStats_counters h p latency success now :
  Stats.count (Provider.stats p) <> JS.NaN ->
  Stats.successes (Provider.stats p) <> JS.NaN ->
  Stats.failures (Provider.stats p) <> JS.NaN ->
  let s := Provider.stats p in
  let s' := Provider.stats (updateStats h p latency success now).2 in
  Stats.count s' = JS.add (Stats.count s) (JS.Fin 1) /\
  ((Stats.successes s' = JS.add (Stats.successes s) (JS.Fin 1) /\
    Stats.failures s' = Stats.failures s) \/
   (Stats.failures s' = JS.add (Stats.failures s) (JS.Fin 1) /\
    Stats.successes s' = Stats.successes s)).
Proof.
  intros Hc Hs Hf s s'.
  assert (Hcases : success && number_not_NaN latency = false \/
                   exists l, latency = JS.VNum l /\ success && negb (JS.isNaN l) = true).
  { destruct latency as [| | |l|]; simpl; rewrite ?andb_false_r; auto.
    destruct (success && negb (JS.isNaN l)) eqn:E; eauto. }
  subst s s'. destruct Hcases as [E | (l & -> & E)].
  - rewrite (updateStats_failure _ _ _ _ _ E). cbn -[JS.add JS.or].
    rewrite !add_or_zero by assumption. auto.
  - rewrite (updateStats_success _ _ _ _ _ E).
    destruct (Arr.isArray _ _); cbn -[JS.add JS.or];
      rewrite !add_or_zero by assumption; auto.
Qed.

Lemma count_invariant_step (s s' : Stats.t) :
  count_invariant s ->
  Stats.count s' = JS.add (Stats.count s) (JS.Fin 1) ->
  (Stats.successes s' = JS.add (Stats.successes s) (JS.Fin 1) /\
   Stats.failures s' = Stats.failures s) \/
  (Stats.failures s' = JS.add (Stats.failures s) (JS.Fin 1) /\
   Stats.successes s' = Stats.successes s) ->
  count_invariant s'.
Proof.
  intros Hinv Hc Hsf. destruct (seq_add_one _ _ _ Hinv) as [Hsucc Hfail].
  unfold count_invariant. rewrite Hc.
  destruct Hsf as [[-> ->] | [-> ->]]; assumption.
Qed.

(** C3: every call of [updateStats], whatever its arguments, preserves
    [count == successes + failures]; [count] moves by one together with
    exactly one of [successes] and [failures]. *)
Theorem updateStats_count_invariant h p latency success now :
  count_invariant (Provider.stats p) ->
  let s := Provider.stats p in
  let s' := Provider.stats (updateStats h p latency success now).2 in
  count_invariant s' /\
  Stats.count s' = JS.add (Stats.count s) (JS.Fin 1) /\
  ((Stats.successes s' = JS.add (Stats.successes s) (JS.Fin 1) /\
    Stats.failures s' = Stats.failures s) \/
   (Stats.failures s' = JS.add (Stats.failures s) (JS.Fin 1) /\
    Stats.successes s' = Stats.successes s)).
Proof.
  intros Hinv s s'.
  destruct (count_invariant_not_NaN _ Hinv) as (Hc & Hs & Hf).
  destruct (updateStats_counters h p latency success now Hc Hs Hf) as [Hcount Hmoved].
  fold s s' in Hcount, Hmoved.
  split; [|split; assumption].
  apply (count_invariant_step s s'); assumption.
Qed.

Lemma updateStats_count_invariant_witness :
  count_invariant (Provider.stats (fresh_provider openai).2) /\
  count_invariant
    (Provider.stats
       (updateStats (fresh_provider openai).1 (fresh_provider openai).2
          (JS.VNum (JS.Fin 120)) true 1700000000000).2).
Proof.
  split; [reflexivity|].
  apply (updateStats_count_invariant (fresh_provider openai).1 (fresh_provider openai).2
           (JS.VNum (JS.Fin 120)) true 1700000000000).
  reflexivity.
Defined.

(** The invariant holds initially and after every sequence of calls, of
    mixed outcomes. *)
Lemma apply_updates_count_invariant h p calls :
  count_invariant (Provider.stats p) ->
  count_invariant (Provider.stats (apply_updates h p calls).2).
Proof.
  unfold apply_updates. revert h p.
  induction calls as [|[[latency success] now] calls IH]; intros h p Hinv; [exact Hinv|].
  simpl. destruct (updateStats h p latency success now) as [h' p'] eqn:E.
  apply IH.
  destruct (count_invariant_not_NaN _ Hinv) as (Hc & Hs & Hf).
  pose proof (updateStats_counters h p latency success now Hc Hs Hf) as H.
  rewrite E in H. simpl in H.
  apply (count_invariant_step (Provider.stats p)); [assumption | apply H | apply H].
Qed.

(** C10, as stated, fails on an infinite latency: [Infinity] is a number
    and is not [NaN], so the call records a success. *)
Lemma updateStats_infinite_latency_counterexample :
  finite_number (JS.VNum JS.PInf) = false /\
  ~ recorded_as_failure (fresh_provider openai).1 (fresh_provider openai).2
      (updateStats (fresh_provider openai).1 (fresh_provider openai).2
         (JS.VNum JS.PInf) true 1700000000000).
Proof.
  split; [reflexivity|].
  intros (_ & _ & Hcur & _). vm_compute in Hcur. discriminate.
Qed.

(** C10, amended: a call with [success = true] and a latency that is not a
    number, or is [NaN], records a failure: [count] and [failures] move by
    one, [current] is [null], and [successes], [min], [max], [avg],
    [total] and the history are unchanged. *)
Theorem updateStats_invalid_latency h p latency now :
  number_not_NaN latency = false ->
  count_invariant (Provider.stats p) ->
  recorded_as_failure h p (updateStats h p latency true now).
Proof.
  intros E Hinv.
  destruct (count_invariant_not_NaN _ Hinv) as (Hc & _ & Hf).
  rewrite (updateStats_failure h p latency true now) by (simpl; exact E).
  unfold recorded_as_failure; cbn -[JS.add JS.or].
  rewrite !add_or_zero by assumption.
  repeat split.
Qed.

Lemma updateStats_invalid_latency_witness :
  recorded_as_failure (fresh_provider openai).1 (fresh_provider openai).2
    (updateStats (fresh_provider openai).1 (fresh_provider openai).2
       (JS.VNum JS.NaN) true 1700000000000).
Proof.
  apply (updateStats_invalid_latency (fresh_provider openai).1 (fresh_provider openai).2
           (JS.VNum JS.NaN) 1700000000000); reflexivity.
Defined.

(** ** Sequences of successful probes *)

Lemma apply_updates_snoc h p calls latency success now :
  apply_updates h p (calls ++ [(latency, success, now)]) =
    updateStats (apply_updates h p calls).1 (apply_updates h p calls).2 latency success now.
Proof. unfold apply_updates. rewrite foldl_app. reflexivity. Qed.

Lemma apply_updates_cons h p calls latency success now :
  apply_updates h p ((latency, success, now) :: calls) =
    apply_updates (updateStats h p latency success now).1
      (updateStats h p latency success now).2 calls.
Proof.
  unfold apply_updates. simpl. destruct (updateStats h p latency success now). reflexivity.
Qed.

Lemma updateStats_success_fields h p l success now :
  success && negb (JS.isNaN l) = true ->
  exists a, Provider.stats (updateStats h p (JS.VNum l) success now).2
            = Stats.set_history a (folded (Provider.stats p) l).
Proof.
  intros E. rewrite (updateStats_success _ _ _ _ _ E).
  destruct (Arr.isArray _ _); [exists (Stats.history (Provider.stats p))|eexists]; reflexivity.
Qed.

Lemma sum_snoc ls l : sum (ls ++ [l]) = sum ls + l.
Proof. unfold sum. induction ls as [|x ls IH]; simpl; [lia|]. rewrite IH. lia. Qed.

Lemma js_max_fin a b : JS.max (JS.Fin a) (JS.Fin b) = JS.Fin (Z.max a b).
Proof. simpl. destruct (Z.ltb_spec a b); f_equal; lia. Qed.

Lemma js_min_fin a b : JS.min (JS.Fin a) (JS.Fin b) = JS.Fin (Z.min a b).
Proof. simpl. destruct (Z.ltb_spec b a); f_equal; lia. Qed.

Lemma rounded_mean_div s n : 0 < n -> is_rounded_mean ((2 * s + n) / (2 * n)) s n.
Proof.
  intros Hn. unfold is_rounded_mean.
  pose proof (Z.div_mod (2 * s + n) (2 * n) ltac:(lia)) as Hd.
  pose proof (Z.mod_pos_bound (2 * s + n) (2 * n) ltac:(lia)) as Hm.
  set (q := (2 * s + n) / (2 * n)) in *. nia.
Qed.

Lemma is_max_snoc m ls l : is_max m ls -> is_max (Z.max m l) (ls ++ [l]).
Proof.
  intros [Hin Hall]. split.
  - apply elem_of_app. destruct (Z.max_spec m l) as [[_ ->]|[_ ->]]; [right|left]; auto.
    apply list_elem_of_singleton; reflexivity.
  - apply Forall_app. split.
    + eapply Forall_impl; [exact Hall|]. simpl; intros; lia.
    + constructor; [lia|constructor].
Qed.

Lemma is_min_snoc m ls l : is_min m ls -> is_min (Z.min m l) (ls ++ [l]).
Proof.
  intros [Hin Hall]. split.
  - apply elem_of_app. destruct (Z.min_spec m l) as [[_ ->]|[_ ->]]; [left|right]; auto.
    apply list_elem_of_singleton; reflexivity.
  - apply Forall_app. split.
    + eapply Forall_impl; [exact Hall|]. simpl; intros; lia.
    + constructor; [lia|constructor].
Qed.

Lemma is_max_singleton l : is_max l [l].
Proof. split; [apply list_elem_of_singleton; reflexivity | constructor; [lia|constructor]]. Qed.

Lemma is_min_singleton l : is_min l [l].
Proof. split; [apply list_elem_of_singleton; reflexivity | constructor; [lia|constructor]]. Qed.

Lemma initial_running a : running (Stats.initial a) [] /\ running_min (Stats.initial a) [].
Proof. unfold running, running_min; simpl; auto 10. Qed.

Lemma tallies_running s ls : tallies s ls -> running s ls.
Proof. intros (Hc & Hs & Hf & Ht & _ & Hm). unfold running; auto 10. Qed.

Lemma folded_tallies s ls l a :
  running s ls -> 0 <= l ->
  tallies (Stats.set_history a (folded s (JS.Fin l))) (ls ++ [l]).
Proof.
  intros (Hc & Hs & Hf & Ht & Hm) Hl.
  unfold tallies, folded; cbn -[JS.add JS.or JS.max JS.min JS.round_div JS.gt Z.mul].
  rewrite Hc, Hs, Hf, Ht, !or_zero_fin, length_app, sum_snoc.
  change (length [l]) with 1%nat. cbn [JS.add].
  replace (Z.of_nat (length ls + 1)) with (Z.of_nat (length ls) + 1) by lia.
  remember (Z.of_nat (length ls) + 1) as n eqn:En.
  assert (Hn : 0 < n) by lia. clear En.
  cbn [JS.add JS.gt JS.lt JS.round_div].
  destruct (Z.ltb_spec 0 n); [|lia]. destruct (Z.eqb_spec n 0); [lia|].
  repeat split.
  - eexists; split; [reflexivity|]. apply rounded_mean_div; assumption.
  - destruct Hm as [[-> ->] | (m & -> & Hmax)]; rewrite or_zero_fin, js_max_fin.
    + exists l. split; [f_equal; lia | apply is_max_singleton].
    + eexists; split; [reflexivity | apply is_max_snoc; assumption].
Qed.

Lemma folded_min s ls l a :
  running_min s ls -> Forall (fun x => 0 < x) ls ->
  has_min (Stats.set_history a (folded s (JS.Fin l))) (ls ++ [l]).
Proof.
  intros Hm Hpos. unfold has_min, folded; cbn -[JS.or JS.min].
  destruct Hm as [[-> ->] | (m & -> & Hmin)].
  - exists l. split; [reflexivity | apply is_min_singleton].
  - assert (Hne : m <> 0).
    { destruct Hmin as [Hin _]. rewrite Forall_forall in Hpos.
      specialize (Hpos m Hin). lia. }
    unfold JS.or; cbn [JS.truthy]. destruct (Z.eqb_spec m 0); [contradiction|].
    cbn [negb]. rewrite js_min_fin.
    eexists; split; [reflexivity | apply is_min_snoc; assumption].
Qed.

Lemma successful_snoc probes l now :
  successful (probes ++ [(l, now)]) = successful probes ++ [(JS.VNum (JS.Fin l), true, now)].
Proof. unfold successful. rewrite map_app. reflexivity. Qed.

Lemma latencies_snoc probes l now : latencies (probes ++ [(l, now)]) = latencies probes ++ [l].
Proof. unfold latencies. rewrite map_app. reflexivity. Qed.

Lemma apply_successful_step h p probes l now :
  exists a,
    Provider.stats (apply_updates h p (successful (probes ++ [(l, now)]))).2 =
    Stats.set_history a
      (folded (Provider.stats (apply_updates h p (successful probes)).2) (JS.Fin l)).
Proof.
  rewrite successful_snoc, apply_updates_snoc.
  apply updateStats_success_fields. reflexivity.
Qed.

Lemma apply_successful_running h p probes :
  running (Provider.stats p) [] ->
  Forall (fun lp => 0 <= lp.1) probes ->
  running (Provider.stats (apply_updates h p (successful probes)).2) (latencies probes).
Proof.
  intros H0. induction probes as [|[l now] probes IH] using rev_ind; intros Hall; [exact H0|].
  apply Forall_app in Hall as [Hall Hl]. inversion_clear Hl as [|? ? Hl0 _]. simpl in Hl0.
  destruct (apply_successful_step h p probes l now) as [a ->].
  rewrite latencies_snoc. apply tallies_running, folded_tallies; auto.
Qed.

Lemma apply_successful_running_min h p probes :
  running_min (Provider.stats p) [] ->
  Forall (fun lp => 0 < lp.1) probes ->
  running_min (Provider.stats (apply_updates h p (successful probes)).2) (latencies probes).
Proof.
  intros H0. induction probes as [|[l now] probes IH] using rev_ind; intros Hall; [exact H0|].
  apply Forall_app in Hall as [Hall Hl].
  destruct (apply_successful_step h p probes l now) as [a ->].
  rewrite latencies_snoc. right. apply folded_min; [apply IH; assumption|].
  unfold latencies. rewrite Forall_fmap. exact Hall.
Qed.

(** The counters, the mean and the maximum are as C1 says for every
    sequence of successful probes: a probe's latency is never negative. *)
Lemma successful_probes_tallies c probes :
  probes <> [] ->
  Forall (fun lp => 0 <= lp.1) probes ->
  tallies
    (Provider.stats
       (apply_updates (fresh_provider c).1 (fresh_provider c).2 (successful probes)).2)
    (latencies probes).
Proof.
  intros Hne Hall.
  destruct probes as [|[l now] probes _] using rev_ind; [congruence|].
  apply Forall_app in Hall as [Hall Hl]. inversion_clear Hl as [|? ? Hl0 _]. simpl in Hl0.
  destruct (apply_successful_step (fresh_provider c).1 (fresh_provider c).2 probes l now)
    as [a ->].
  rewrite latencies_snoc. apply folded_tallies; [|assumption].
  apply apply_successful_running; [apply (initial_running 0%nat) | assumption].
Qed.

(** The minimum is as C1 says when no latency is zero. *)
Lemma successful_probes_min c probes :
  probes <> [] ->
  Forall (fun lp => 0 < lp.1) probes ->
  has_min
    (Provider.stats
       (apply_updates (fresh_provider c).1 (fresh_provider c).2 (successful probes)).2)
    (latencies probes).
Proof.
  intros Hne Hall.
  destruct (apply_successful_running_min (fresh_provider c).1 (fresh_provider c).2 probes)
    as [[Hnil _] | H]; auto.
  - apply (initial_running 0%nat).
  - destruct probes; [congruence | discriminate].
Qed.

(** C1: after successful probes with latencies L1..Ln, [stats.min] is the
    least of them.  The code breaks this: after a probe of 0 ms the next
    success replaces the minimum, because [stats.min || Infinity] takes a
    minimum of zero for a missing one.  Here the latencies are 0 and 5
    and [stats.min] ends as 5. *)
Theorem updateStats_min_after_zero :
  let probes := [(0, 1700000000000); (5, 1700000005000)] in
  let s := Provider.stats
             (apply_updates (fresh_provider openai).1 (fresh_provider openai).2
                (successful probes)).2 in
  Stats.min s = JS.Fin 5 /\ is_min 0 (latencies probes) /\ ~ has_min s (latencies probes).
Proof.
  cbv zeta. split; [reflexivity|]. split.
  - split; [apply list_elem_of_here|].
    simpl. repeat (apply Forall_cons; split; [lia|]). apply Forall_nil_2.
  - intros (m & Hm & _ & Hall). vm_compute in Hm. injection Hm as <-.
    inversion_clear Hall as [|? ? H0 _]. lia.
Qed.

(** The same through [testProvider]: a probe that settles within half a
    millisecond is a success with a latency of 0, which the guard
    [latency < 0] lets through, and the next probe loses it. *)
Example testProvider_min_after_zero :
  let s1 := testProvider 0 (mkProbe true (JS.Fin 0) true (Return tt) 1700000000000)
              three_providers in
  let s2 := testProvider 0 (mkProbe true (JS.Fin 5) true (Return tt) 1700000005000) s1 in
  (Stats.min ∘ Provider.stats) <$> Monitor.providers (monitor s1) !! 0%nat = Some (JS.Fin 0) /\
  (Stats.min ∘ Provider.stats) <$> Monitor.providers (monitor s2) !! 0%nat = Some (JS.Fin 5).
Proof. split; reflexivity. Qed.

(** ** The bounded history *)

Lemma sample_of_None latency success now :
  sample_of (latency, success, now) = None ->
  success && number_not_NaN latency = false.
Proof.
  destruct latency as [| | |l|], success; simpl; try reflexivity.
  destruct (JS.isNaN l); [reflexivity | discriminate].
Qed.

Lemma sample_of_Some latency success now x :
  sample_of (latency, success, now) = Some x ->
  exists l, latency = JS.VNum l /\ success && negb (JS.isNaN l) = true /\ x = mkSample now l.
Proof.
  destruct latency as [| | |l|], success; simpl; try discriminate.
  destruct (JS.isNaN l) eqn:E; [discriminate|]. intros [= <-].
  exists l. rewrite E. auto.
Qed.

Lemma samples_cons c calls :
  samples (c :: calls) =
    match sample_of c with
    | Some x => x :: samples calls
    | None => samples calls
    end.
Proof. reflexivity. Qed.

Lemma pushed_lookup (h : heap) a x xs :
  h !! a = Some xs ->
  pushed h a x !! a =
    Some (if (100 <? length (xs ++ [x]))%nat then tail (xs ++ [x]) else xs ++ [x]).
Proof.
  intros Ha. unfold pushed, Arr.length, Arr.elems, Arr.shift, Arr.push.
  rewrite list_lookup_alter_eq, Ha. simpl.
  destruct (100 <? length (xs ++ [x]))%nat; rewrite !list_lookup_alter_eq, Ha; reflexivity.
Qed.

Lemma lastn_length {A} n (l : list A) : length (lastn n l) = Nat.min (length l) n.
Proof. unfold lastn. rewrite length_drop. lia. Qed.

Lemma lastn_all {A} n (l : list A) : (length l <= n)%nat -> lastn n l = l.
Proof. intros H. unfold lastn. replace (length l - n)%nat with 0%nat by lia. reflexivity. Qed.

Lemma lastn_evict {A} (xs rest : list A) x :
  (length xs <= 100)%nat ->
  lastn 100 ((if (100 <? length (xs ++ [x]))%nat then tail (xs ++ [x]) else xs ++ [x]) ++ rest)
  = lastn 100 (xs ++ x :: rest).
Proof.
  intros Hlen. rewrite (cons_middle x xs rest), (assoc_L (++) xs [x] rest).
  destruct (Nat.ltb_spec 100 (length (xs ++ [x]))) as [Hgt|Hle]; [|reflexivity].
  rewrite length_app in Hgt; simpl in Hgt.
  assert (Hx : length (xs ++ [x]) = 101%nat) by (rewrite length_app; simpl; lia).
  destruct (xs ++ [x]) as [|y ys] eqn:E; [discriminate|].
  simpl in Hx. unfold lastn. simpl tail. rewrite !length_app. simpl length.
  replace (length ys + length rest - 100)%nat with (length rest) by lia.
  replace (S (length ys) + length rest - 100)%nat with (S (length rest)) by lia.
  reflexivity.
Qed.

Lemma pushed_length_le (xs : list Sample) x :
  (length xs <= 100)%nat ->
  (length (if (100 <? length (xs ++ [x]))%nat then tail (xs ++ [x]) else xs ++ [x]) <= 100)%nat.
Proof.
  intros H. destruct (Nat.ltb_spec 100 (length (xs ++ [x]))) as [Hgt|Hle]; [|exact Hle].
  rewrite length_app in Hgt. simpl in Hgt.
  destruct (xs ++ [x]) eqn:E; simpl; [lia|].
  apply (f_equal length) in E. rewrite length_app in E. simpl in E. lia.
Qed.

(** From any state whose history holds at most 100 samples, a sequence of
    calls leaves the array in place, holding the last 100 of the old
    samples followed by the recorded ones. *)
Lemma apply_updates_history calls : forall (h : heap) p xs,
  h !! Stats.history (Provider.stats p) = Some xs ->
  (length xs <= 100)%nat ->
  Stats.history (Provider.stats (apply_updates h p calls).2) = Stats.history (Provider.stats p) /\
  (apply_updates h p calls).1 !! Stats.history (Provider.stats p)
    = Some (lastn 100 (xs ++ samples calls)).
Proof.
  induction calls as [|[[latency success] now] calls IH]; intros h p xs Ha Hlen.
  - simpl. rewrite app_nil_r, lastn_all by assumption. auto.
  - rewrite apply_updates_cons.
    rewrite samples_cons.
    destruct (sample_of (latency, success, now)) as [x|] eqn:Es.
    + apply sample_of_Some in Es as (l & -> & E & ->).
      rewrite (updateStats_success _ _ _ _ _ E).
      unfold Arr.isArray. rewrite Ha.
      set (x := mkSample now l).
      destruct (IH (pushed h (Stats.history (Provider.stats p)) x)
                   (Provider.set_stats (folded (Provider.stats p) l) p)
                   (if (100 <? length (xs ++ [x]))%nat then tail (xs ++ [x]) else xs ++ [x]))
        as [IH1 IH2].
      * apply pushed_lookup; assumption.
      * apply pushed_length_le; assumption.
      * cbn [fst snd] in *. simpl in IH1, IH2. split; [exact IH1|].
        rewrite IH2, lastn_evict by assumption. reflexivity.
    + apply sample_of_None in Es.
      rewrite (updateStats_failure _ _ _ _ _ Es). cbn [fst snd].
      destruct (IH h (Provider.set_stats
                        (Stats.set_current None
                           (Stats.set_failures
                              (JS.add (JS.or (Stats.failures (Provider.stats p)) (JS.Fin 0)) (JS.Fin 1))
                              (Stats.set_count
                                 (JS.add (JS.or (Stats.count (Provider.stats p)) (JS.Fin 0)) (JS.Fin 1))
                                 (Provider.stats p)))) p) xs Ha Hlen) as [IH1 IH2].
      split; assumption.
Qed.

(** C2: the history never exceeds 100 entries and holds the samples of
    the most recent [min(k, 100)] successful probes in the order of their
    arrival, the oldest evicted first; a failed probe adds no entry. *)
Theorem history_keeps_last_100 c calls :
  let r := apply_updates (fresh_provider c).1 (fresh_provider c).2 calls in
  let history := Arr.elems r.1 (Stats.history (Provider.stats r.2)) in
  (length history <= 100)%nat /\
  history = lastn 100 (samples calls) /\
  length history = Nat.min (length (samples calls)) 100 /\
  (forall h p latency success now,
     sample_of (latency, success, now) = None ->
     (updateStats h p latency success now).1 = h /\
     Stats.history (Provider.stats (updateStats h p latency success now).2)
       = Stats.history (Provider.stats p)).
Proof.
  intros r history.
  destruct (apply_updates_history calls (fresh_provider c).1 (fresh_provider c).2 [])
    as [H1 H2]; [reflexivity | simpl; lia |].
  assert (Hh : history = lastn 100 (samples calls)).
  { subst history r. unfold Arr.elems. rewrite H1, H2. reflexivity. }
  rewrite Hh, lastn_length.
  split; [lia|]. split; [reflexivity|]. split; [reflexivity|].
  intros h p latency success now Es. apply sample_of_None in Es.
  rewrite (updateStats_failure _ _ _ _ _ Es). split; reflexivity.
Qed.

(** ** [clearStats] *)

Lemma clear_each_closed providers : forall h : heap,
  clear_each h providers =
    (h ++ replicate (length providers) [],
     imap (fun i p => Provider.mk (Provider.config p) (Stats.initial (length h + i)) idle)
       providers).
Proof.
  induction providers as [|p providers IH]; intros h; simpl.
  - rewrite app_nil_r. reflexivity.
  - rewrite IH. f_equal.
    + rewrite <- (assoc_L (++)). reflexivity.
    + unfold Provider.set_status, Provider.set_stats; simpl.
      rewrite Nat.add_0_r. f_equal.
      apply imap_ext. intros i q _. simpl. rewrite length_app. simpl.
      do 2 f_equal. lia.
Qed.

(** C6: [clearStats] gives every provider the initial stats with a new,
    empty history, sets its status to idle, sets [totalTests] to 0, and
    leaves the identity fields as they were. *)
Theorem clearStats_resets (h : heap) (m : Monitor.t) :
  let r := clearStats h m in
  Monitor.totalTests r.2 = JS.Fin 0 /\
  length (Monitor.providers r.2) = length (Monitor.providers m) /\
  (forall i p', Monitor.providers r.2 !! i = Some p' ->
     exists p a,
       Monitor.providers m !! i = Some p /\
       Provider.config p' = Provider.config p /\
       Provider.status p' = idle /\
       Provider.stats p' =
         Stats.mk None JS.PInf (JS.Fin 0) (JS.Fin 0) (JS.Fin 0) (JS.Fin 0) (JS.Fin 0)
           (JS.Fin 0) a /\
       r.1 !! a = Some [] /\
       h !! a = None).
Proof.
  unfold clearStats. rewrite clear_each_closed. cbn [fst snd Monitor.totalTests
    Monitor.providers Monitor.set_totalTests Monitor.set_providers].
  split; [reflexivity|]. split; [apply length_imap|].
  intros i p' Hi. rewrite list_lookup_imap in Hi.
  destruct (Monitor.providers m !! i) as [p|] eqn:Hp; [|discriminate].
  injection Hi as <-. exists p, (length h + i)%nat.
  apply lookup_lt_Some in Hp as Hlt.
  repeat split.
  - rewrite lookup_app_r by lia.
    replace (length h + i - length h)%nat with i by lia.
    apply lookup_replicate_2. assumption.
  - apply lookup_ge_None. lia.
Qed.

(** ** [getFastestProvider] *)

Lemma lt_trans a b c : JS.lt a b = true -> JS.lt b c = true -> JS.lt a c = true.
Proof.
  destruct a, b, c; simpl; try congruence; rewrite ?Z.ltb_lt; lia.
Qed.

Lemma lt_le_trans a b c :
  c <> JS.NaN -> JS.lt a b = true -> JS.lt c b = false -> JS.lt a c = true.
Proof.
  destruct a, b, c; simpl; try congruence; rewrite ?Z.ltb_lt, ?Z.ltb_ge; lia.
Qed.

Lemma lt_asym a b : JS.lt a b = true -> JS.lt b a = false.
Proof.
  destruct a, b; simpl; try congruence; rewrite ?Z.ltb_lt, ?Z.ltb_ge; lia.
Qed.

(** [updateStats] never stores [NaN] in [current]. *)
Lemma updateStats_current_not_NaN h p latency success now :
  current_not_NaN (updateStats h p latency success now).2.
Proof.
  unfold current_not_NaN.
  destruct (success && number_not_NaN latency) eqn:E.
  - destruct latency as [| | |l|]; simpl in E; rewrite ?andb_false_r in E; try discriminate.
    destruct (updateStats_success_fields h p l success now E) as [a ->]. simpl.
    destruct l; simpl in E; rewrite ?andb_false_r in E; congruence.
  - rewrite (updateStats_failure _ _ _ _ _ E). simpl. congruence.
Qed.

Lemma reduce_first_fastest rest : forall first,
  Forall (fun p => has_current p = true /\ current_not_NaN p) (first :: rest) ->
  exists before after,
    first :: rest =
      before ++ foldl (fun fastest current =>
                         if faster current fastest then current else fastest) first rest
             :: after /\
    first_fastest before
      (foldl (fun fastest current => if faster current fastest then current else fastest)
         first rest)
      after.
Proof.
  induction rest as [|x rest IH] using rev_ind; intros first Hall.
  - exists [], []. split; [reflexivity|]. simpl.
    inversion_clear Hall as [|? ? [Hc _] _]. unfold has_current in Hc.
    destruct (Stats.current (Provider.stats first)) as [c|] eqn:E; [|discriminate].
    exists c. split; [exact E|]. split; constructor.
  - rewrite app_comm_cons in Hall. apply Forall_app in Hall as [Hall Hx].
    inversion_clear Hx as [|? ? [Hxc Hxn] _].
    destruct (IH first Hall) as (before & after & Heq & c & Hc & Hb & Ha).
    rewrite foldl_app. simpl.
    set (f := foldl _ first rest) in *.
    unfold has_current in Hxc. unfold current_not_NaN in Hxn.
    destruct (Stats.current (Provider.stats x)) as [cx|] eqn:Ex; [|discriminate].
    assert (Hcx : cx <> JS.NaN) by congruence.
    unfold faster. rewrite Ex, Hc.
    destruct (JS.lt cx c) eqn:Hlt.
    + exists (first :: rest), []. split; [reflexivity|].
      exists cx. split; [assumption|]. split; [|constructor].
      rewrite Heq. apply Forall_app. split; [|constructor].
      * eapply Forall_impl; [exact Hb|]. simpl. intros q Hq d Hd.
        eapply lt_trans; [exact Hlt | apply Hq; assumption].
      * intros d Hd. congruence.
      * apply Forall_forall. intros q Hq d Hd.
        rewrite Forall_forall in Ha.
        assert (Hqin : q ∈ first :: rest).
        { rewrite Heq. apply elem_of_app. right. apply list_elem_of_further. assumption. }
        rewrite Forall_forall in Hall. destruct (Hall q Hqin) as [_ Hqn].
        unfold current_not_NaN in Hqn.
        eapply lt_le_trans; [congruence | exact Hlt | apply (Ha q Hq); assumption].
    + exists before, (after ++ [x]). split.
      * rewrite app_comm_cons, Heq, <- (assoc_L (++)). reflexivity.
      * exists c. split; [assumption|]. split; [assumption|].
        apply Forall_app. split; [assumption|]. constructor; [|constructor].
        intros d Hd. congruence.
Qed.

Lemma filter_split {A} (P : A -> Prop) `{forall x, Decision (P x)} (l : list A) :
  forall b x a, filter P l = b ++ x :: a ->
  exists b' a', l = b' ++ x :: a' /\ filter P b' = b /\ filter P a' = a.
Proof.
  induction l as [|y l IH]; intros b x a Hf.
  - destruct b; discriminate.
  - rewrite filter_cons in Hf. destruct (decide (P y)) as [Hy|Hy].
    + destruct b as [|z b]; simpl in Hf; injection Hf as <- Hf.
      * exists [], l. rewrite filter_nil. auto.
      * destruct (IH _ _ _ Hf) as (b' & a' & -> & <- & <-).
        exists (y :: b'), a'. rewrite filter_cons_True by assumption. auto.
    + destruct (IH _ _ _ Hf) as (b' & a' & -> & <- & <-).
      exists (y :: b'), a'. rewrite filter_cons_False by assumption. auto.
Qed.

(** C7: [getFastestProvider] returns the first provider in registry order
    whose [current] is the lowest among those that have one, and [null]
    when none has. *)
Theorem getFastestProvider_first_minimal (m : Monitor.t) :
  Forall current_not_NaN (Monitor.providers m) ->
  match getFastestProvider m with
  | None => Forall (fun p => Stats.current (Provider.stats p) = None) (Monitor.providers m)
  | Some f =>
      exists before after,
        Monitor.providers m = before ++ f :: after /\ first_fastest before f after
  end.
Proof.
  intros Hnan. unfold getFastestProvider.
  destruct (filter _ (Monitor.providers m)) as [|first rest] eqn:Ef.
  - apply Forall_forall. intros p Hp.
    destruct (Stats.current (Provider.stats p)) as [c|] eqn:Ec; [|reflexivity].
    assert (Hin : p ∈ filter (fun p => has_current p = true) (Monitor.providers m)).
    { apply list_elem_of_filter. split; [|assumption]. unfold has_current. rewrite Ec. reflexivity. }
    rewrite Ef in Hin. inversion Hin.
  - assert (Hall : Forall (fun p => has_current p = true /\ current_not_NaN p) (first :: rest)).
    { rewrite <- Ef. apply Forall_forall. intros p Hp.
      apply list_elem_of_filter in Hp as [Hc Hin]. split; [assumption|].
      rewrite Forall_forall in Hnan. auto. }
    destruct (reduce_first_fastest rest first Hall) as (b & a & Heq & c & Hc & Hb & Ha).
    rewrite Heq in Ef.
    destruct (filter_split _ _ _ _ _ Ef) as (b' & a' & Hm & <- & <-).
    exists b', a'. split; [assumption|].
    exists c. split; [assumption|]. split.
    + apply Forall_forall. intros q Hq d Hd.
      rewrite Forall_forall in Hb. apply (fun H => Hb q H d Hd).
      apply list_elem_of_filter. split; [|assumption]. unfold has_current. rewrite Hd. reflexivity.
    + apply Forall_forall. intros q Hq d Hd.
      rewrite Forall_forall in Ha. apply (fun H => Ha q H d Hd).
      apply list_elem_of_filter. split; [|assumption]. unfold has_current. rewrite Hd. reflexivity.
Qed.

Lemma getFastestProvider_first_minimal_witness :
  Forall current_not_NaN (Monitor.providers tie_monitor) /\
  match getFastestProvider tie_monitor with
  | None => Forall (fun p => Stats.current (Provider.stats p) = None)
              (Monitor.providers tie_monitor)
  | Some f =>
      exists before after,
        Monitor.providers tie_monitor = before ++ f :: after /\ first_fastest before f after
  end.
Proof.
  assert (H : Forall current_not_NaN (Monitor.providers tie_monitor)).
  { repeat (apply Forall_cons; split; [discriminate|]). apply Forall_nil_2. }
  split; [exact H|].
  apply (getFastestProvider_first_minimal tie_monitor H).
Defined.

(** With a tie at 120 ms the provider registered first is returned. *)
Example getFastestProvider_tie :
  getFastestProvider tie_monitor = Some (with_current openai 0%nat (Some (JS.Fin 120)) online).
Proof. reflexivity. Qed.

(** ** The constructor and the registry check *)

Lemma instantiate_extends registry : forall (h : heap) a xs,
  h !! a = Some xs -> (instantiate h registry).1 !! a = Some xs.
Proof.
  induction registry as [|[c|] registry IH]; intros h a xs Ha; simpl.
  - assumption.
  - specialize (IH (h ++ [[]]) a xs (lookup_app_l_Some _ _ _ _ Ha)).
    destruct (instantiate (h ++ [[]]) registry). assumption.
  - apply IH. assumption.
Qed.

Lemma instantiate_configs registry : forall h : heap,
  map Provider.config (instantiate h registry).2 = omap id registry /\
  Forall (fun p => Provider.status p = idle /\
                   exists a, Provider.stats p = Stats.initial a /\
                             (instantiate h registry).1 !! a = Some [] /\ h !! a = None)
    (instantiate h registry).2.
Proof.
  induction registry as [|[c|] registry IH]; intros h; simpl.
  - split; constructor.
  - destruct (instantiate (h ++ [[]]) registry) as [h' ps] eqn:E.
    specialize (IH (h ++ [[]])). rewrite E in IH. destruct IH as [IH1 IH2]. simpl in *.
    assert (Hpre : forall a xs, (h ++ [[]]) !! a = Some xs -> h' !! a = Some xs).
    { intros a xs Ha. pose proof (instantiate_extends registry _ _ _ Ha) as Hx.
      rewrite E in Hx. exact Hx. }
    split; [f_equal; assumption|]. constructor.
    + split; [reflexivity|]. exists (length h). split; [reflexivity|]. split.
      * apply Hpre. rewrite lookup_app_r by lia. rewrite Nat.sub_diag. reflexivity.
      * apply lookup_ge_None. lia.
    + eapply Forall_impl; [exact IH2|]. simpl. intros p [Hs (a & Ha & Hl & Hn)].
      split; [assumption|]. exists a. repeat split; try assumption.
      apply lookup_ge_None. apply lookup_ge_None in Hn. rewrite length_app in Hn. lia.
  - apply IH.
Qed.

(** C9, as stated, fails: a record with an empty [id] is reported by
    [validateProviders] and instantiated by the constructor all the same. *)
Lemma constructor_keeps_falsy_id_counterexample :
  well_configured empty_id = false /\
  validateProviders [Some empty_id] = [MissingFields 0 ["id"]] /\
  exists p, p ∈ Monitor.providers (constructor [] (Some [Some empty_id])).2 /\
            truthy_str (Provider.id p) = false.
Proof.
  split; [reflexivity|]. split; [reflexivity|].
  eexists. split; [apply list_elem_of_here | reflexivity].
Qed.

(** The registry that ships with the monitor passes the check, and all of
    its six records are instantiated. *)
Example shipped_registry :
  validateProviders API_PROVIDERS = [] /\
  map Provider.config (Monitor.providers (constructor [] (Some API_PROVIDERS)).2)
  = [openai; anthropic; google; azure; cohere; huggingface].
Proof. split; reflexivity. Qed.

(** ** The ping strategy *)

(** With [AbortController], a well-configured provider fails exactly on a
    timeout. *)
Lemma pingTest_with_controller fetch p :
  truthy_str (Provider.endpoint p) = true ->
  truthy_str (Provider.pingPath p) = true ->
  pingTest true fetch p = Return (negb (aborted fetch)).
Proof.
  intros He Hp. unfold pingTest. rewrite He, Hp. simpl.
  destruct fetch as [[]|e]; simpl; [reflexivity|].
  destruct (String.eqb (err_name e) "AbortError"); reflexivity.
Qed.

(** Without it, every rejection is a failure: the outer [catch] takes it. *)
Lemma pingTest_fallback fetch p :
  truthy_str (Provider.endpoint p) = true ->
  truthy_str (Provider.pingPath p) = true ->
  pingTest false fetch p = Return (match fetch with Return _ => true | Throw _ => false end).
Proof.
  intros He Hp. unfold pingTest. rewrite He, Hp. simpl.
  destruct fetch as [[]|e]; reflexivity.
Qed.

(** C5: for a well-configured provider [pingTest] returns [false] exactly
    when the network call is aborted by the timeout, and [true] for every
    other outcome: a fetch that resolves, and a rejection that is not an
    abort.  This is [pingTest] where [AbortController] is defined, which
    is so in every browser that the monitor supports and that reads the
    class (its optional chaining is the younger feature); what the branch
    for a missing controller does is [pingTest_fallback]. *)
Theorem pingTest_fails_exactly_on_abort (fetch : result unit) (p : Provider.t) :
  well_configured (Provider.config p) = true ->
  pingTest true fetch p = Return (negb (aborted fetch)).
Proof.
  unfold well_configured, requiredFields. cbn -[truthy_str].
  rewrite !andb_true_iff. intros (_ & _ & He & Hp & _).
  unfold pingTest.
  change (Provider.endpoint p) with (Config.endpoint (Provider.config p)).
  change (Provider.pingPath p) with (Config.pingPath (Provider.config p)).
  rewrite He, Hp. cbn [negb orb].
  destruct fetch as [[]|e]; cbn; [reflexivity|].
  destruct (String.eqb (err_name e) "AbortError"); reflexivity.
Qed.

Lemma pingTest_fails_exactly_on_abort_witness :
  well_configured openai = true /\
  pingTest true (Return ()) (fresh_provider openai).2 = Return true /\
  pingTest true (Throw (mkError "TypeError")) (fresh_provider openai).2 = Return true /\
  pingTest true (Throw (mkError "AbortError")) (fresh_provider openai).2 = Return false.
Proof.
  split; [reflexivity|]. split; [|split].
  - apply (pingTest_fails_exactly_on_abort (Return ()) (fresh_provider openai).2). reflexivity.
  - apply (pingTest_fails_exactly_on_abort (Throw (mkError "TypeError"))
             (fresh_provider openai).2). reflexivity.
  - apply (pingTest_fails_exactly_on_abort (Throw (mkError "AbortError"))
             (fresh_provider openai).2). reflexivity.
Defined.

(** ** The snapshot *)

(** Every snapshot record carries the values of its provider's stats. *)
Lemma getStats_copies (m : Monitor.t) i snap :
  getStats m !! i = Some snap ->
  exists p, Monitor.providers m !! i = Some p /\
            Snapshot.stats snap = Provider.stats p /\
            Snapshot.status snap = Provider.status p.
Proof.
  unfold getStats. rewrite list_lookup_fmap.
  destruct (Monitor.providers m !! i) as [p|]; [|discriminate].
  intros [= <-]. exists p. destruct p as [c [] st]. auto.
Qed.

(** Its [history] is the provider's own array. *)
Lemma getStats_shares_history (m : Monitor.t) i snap :
  getStats m !! i = Some snap ->
  exists p, Monitor.providers m !! i = Some p /\
            Stats.history (Snapshot.stats snap) = Stats.history (Provider.stats p).
Proof.
  intros H. destruct (getStats_copies m i snap H) as (p & Hp & -> & _). eauto.
Qed.

(** A push on the snapshot's history of an allocated array is seen through
    the provider. *)
Lemma snapshot_history_push_seen (h : heap) (m : Monitor.t) i snap p x xs :
  getStats m !! i = Some snap ->
  Monitor.providers m !! i = Some p ->
  h !! Stats.history (Provider.stats p) = Some xs ->
  Arr.elems (snapshot_history_push h snap x) (Stats.history (Provider.stats p)) = xs ++ [x].
Proof.
  intros Hs Hp Hh. destruct (getStats_shares_history m i snap Hs) as (p' & Hp' & Heq).
  rewrite Hp in Hp'. injection Hp' as <-.
  unfold snapshot_history_push, Arr.push, Arr.elems.
  rewrite Heq, list_lookup_alter_eq, Hh. reflexivity.
Qed.

(** C8: mutating any part of a record returned by [getStats], its history
    included, leaves the monitor's provider state unchanged.  The code
    breaks this for the history: the spread copies the stats fields one
    level deep, so the snapshot's [history] is the provider's array, and a
    push on it changes the monitor's state. *)
Theorem getStats_history_aliased :
  let h := (constructor [] (Some [Some openai])).1 in
  let m := (constructor [] (Some [Some openai])).2 in
  let x := mkSample 1700000000000 (JS.Fin 1) in
  exists snap,
    getStats m = [snap] /\
    internal_state h m = [((fresh_provider openai).2, [])] /\
    internal_state (snapshot_history_push h snap x) m = [((fresh_provider openai).2, [x])].
Proof. eexists. repeat split. Qed.

(** ** The probe round *)

Lemma dispatch_Some i s p :
  Monitor.providers (monitor s) !! i = Some p ->
  testProvider_dispatch i s =
    mkState (store s)
      (Monitor.set_providers (<[i := Provider.set_status testing p]> (Monitor.providers (monitor s)))
         (monitor s))
      (if Monitor.onUpdate (monitor s) then notified s ++ [(ev_testing, i)] else notified s).
Proof.
  intros H. unfold testProvider_dispatch, notifyUpdate. rewrite H. simpl.
  destruct (Monitor.onUpdate (monitor s)); reflexivity.
Qed.

Lemma settle_Some i pr s p :
  Monitor.providers (monitor s) !! i = Some p ->
  testProvider_settle i pr s =
    mkState (settle_provider (store s) (Monitor.testMode (monitor s)) pr p).1
      (Monitor.set_providers
         (<[i := (settle_provider (store s) (Monitor.testMode (monitor s)) pr p).2]>
            (Monitor.providers (monitor s)))
         (monitor s))
      (if Monitor.onUpdate (monitor s) then notified s ++ [(ev_complete, i)] else notified s).
Proof.
  intros H. unfold testProvider_settle, notifyUpdate. rewrite H.
  destruct (settle_provider _ _ _ _). simpl.
  destruct (Monitor.onUpdate (monitor s)); reflexivity.
Qed.

Lemma dispatch_length i s :
  length (Monitor.providers (monitor (testProvider_dispatch i s)))
  = length (Monitor.providers (monitor s)).
Proof.
  destruct (Monitor.providers (monitor s) !! i) as [p|] eqn:E.
  - rewrite (dispatch_Some _ _ _ E). simpl. apply length_insert.
  - unfold testProvider_dispatch. rewrite E. reflexivity.
Qed.

Lemma settle_length i pr s :
  length (Monitor.providers (monitor (testProvider_settle i pr s)))
  = length (Monitor.providers (monitor s)).
Proof.
  destruct (Monitor.providers (monitor s) !! i) as [p|] eqn:E.
  - rewrite (settle_Some _ _ _ _ E). simpl. apply length_insert.
  - unfold testProvider_settle. rewrite E. reflexivity.
Qed.

Lemma round_inv_start probes s0 : round_inv probes s0 (round_start s0).
Proof.
  unfold round_inv, round_start; simpl.
  repeat split; try constructor; try lia.
  - intros _. assumption.
  - intros Hin. inversion Hin.
Qed.

Lemma round_inv_step probes s0 r r' :
  round_inv probes s0 r -> round_step probes r r' -> round_inv probes s0 r'.
Proof.
  intros (Hlen & Hmode & Hd & Hnd & Hlt & Hj & Hps) Hstep.
  destruct Hstep as [r Hdlt | r i Hin | r Hdn Hpn Hjf].
  - (* dispatch *)
    rewrite Hlen in Hdlt.
    destruct (lookup_lt_is_Some_2 (Monitor.providers (monitor s0)) (dispatched r) Hdlt)
      as [p0 Hp0].
    destruct (Hps _ _ Hp0) as (Hnot & _ & _).
    specialize (Hnot (Nat.le_refl _)).
    assert (Hfresh : dispatched r ∉ pending r).
    { intros Hin. rewrite Forall_forall in Hlt. specialize (Hlt _ Hin). lia. }
    unfold round_inv. simpl. rewrite (dispatch_Some _ _ _ Hnot). simpl.
    rewrite length_insert.
    split; [assumption|]. split; [assumption|]. split; [lia|]. split.
    { apply NoDup_app. split; [assumption|]. split.
      - intros x Hx Hx'. apply list_elem_of_singleton in Hx'. subst. contradiction.
      - apply NoDup_singleton. }
    split.
    { apply Forall_app. split.
      - eapply Forall_impl; [exact Hlt|]. simpl. intros; lia.
      - constructor; [lia|constructor]. }
    split.
    { destruct (joined r); [|assumption]. destruct Hj as (_ & Hj & _). lia. }
    intros i q0 Hq0. destruct (Hps _ _ Hq0) as (H1 & H2 & H3).
    split; [|split].
    + intros Hi. rewrite list_lookup_insert_ne by lia. apply H1. lia.
    + intros Hi. apply elem_of_app in Hi as [Hi|Hi].
      * rewrite list_lookup_insert_ne.
        -- apply H2. assumption.
        -- intros Heq. subst i. contradiction.
      * apply list_elem_of_singleton in Hi. subst i.
        rewrite Hp0 in Hq0. injection Hq0 as <-.
        apply list_lookup_insert_eq. rewrite Hlen. assumption.
    + intros Hi Hni.
      assert (Hne : i <> dispatched r).
      { intros ->. apply Hni. apply elem_of_app. right. apply list_elem_of_singleton. reflexivity. }
      rewrite list_lookup_insert_ne by congruence.
      apply H3; [lia|]. intros Hi'. apply Hni. apply elem_of_app. left. assumption.
  - (* settle *)
    assert (Hi : (i < dispatched r)%nat).
    { rewrite Forall_forall in Hlt. apply Hlt. assumption. }
    assert (Hi0 : (i < length (Monitor.providers (monitor s0)))%nat) by lia.
    destruct (lookup_lt_is_Some_2 _ _ Hi0) as [p0 Hp0].
    destruct (Hps _ _ Hp0) as (_ & Hpend & _).
    specialize (Hpend Hin).
    unfold round_inv. simpl. rewrite (settle_Some _ _ _ _ Hpend). simpl.
    rewrite length_insert.
    split; [assumption|]. split; [assumption|]. split; [assumption|]. split.
    { apply NoDup_filter. assumption. }
    split.
    { apply Forall_forall. intros j Hj'. apply list_elem_of_filter in Hj' as [_ Hj'].
      rewrite Forall_forall in Hlt. apply Hlt. assumption. }
    split.
    { destruct (joined r); [|assumption]. destruct Hj as (_ & _ & Hj). rewrite Hj in Hin.
      inversion Hin. }
    intros j q0 Hq0. destruct (Hps _ _ Hq0) as (H1 & H2 & H3).
    split; [|split].
    + intros Hj'. rewrite list_lookup_insert_ne by lia. apply H1. assumption.
    + intros Hj'. apply list_elem_of_filter in Hj' as [Hne Hj'].
      rewrite list_lookup_insert_ne by congruence. apply H2. assumption.
    + intros Hj' Hnj. destruct (decide (j = i)) as [->|Hne].
      * rewrite Hp0 in Hq0. injection Hq0 as <-.
        exists (store (state r)). rewrite Hmode.
        apply list_lookup_insert_eq. rewrite Hlen. assumption.
      * rewrite list_lookup_insert_ne by congruence.
        apply H3; [assumption|]. intros Hj''. apply Hnj.
        apply list_elem_of_filter. split; assumption.
  - (* join *)
    unfold round_inv. simpl. rewrite Hjf in Hj.
    split; [assumption|]. split; [assumption|]. split; [assumption|].
    split; [assumption|]. split; [assumption|]. split.
    { rewrite Hj. split; [reflexivity|]. split; [|assumption]. rewrite Hdn. assumption. }
    assumption.
Qed.

Lemma round_inv_steps probes s0 r :
  round_steps probes (round_start s0) r -> round_inv probes s0 r.
Proof.
  remember (round_start s0) as r0 eqn:E.
  induction 1 as [r|r1 r2 r3 _ IH Hstep]; subst.
  - apply round_inv_start.
  - eapply round_inv_step; [apply IH; reflexivity | exact Hstep].
Qed.

(** [runTests] is a run of the round: every probe is dispatched, every
    probe settles, the join follows. *)

Lemma dispatch_all_length s k :
  length (Monitor.providers (monitor (foldl (fun s i => testProvider_dispatch i s) s (seq 0 k))))
  = length (Monitor.providers (monitor s)).
Proof.
  induction k as [|k IH]; [reflexivity|].
  rewrite seq_S, foldl_app. simpl. rewrite dispatch_length. exact IH.
Qed.

Lemma settle_all_length probes s k :
  length (Monitor.providers
            (monitor (foldl (fun s i => testProvider_settle i (probes i) s) s (seq 0 k))))
  = length (Monitor.providers (monitor s)).
Proof.
  induction k as [|k IH]; [reflexivity|].
  rewrite seq_S, foldl_app. simpl. rewrite settle_length. exact IH.
Qed.

Lemma filter_ne_seq k n : filter (fun j => j <> k) (seq k (S n)) = seq (S k) n.
Proof.
  simpl. rewrite filter_cons_False by (intros H; apply H; reflexivity).
  assert (H : forall a, (k < a)%nat -> filter (fun j => j <> k) (seq a n) = seq a n).
  { induction n as [|n IH]; intros a Ha; [reflexivity|]. simpl.
    rewrite filter_cons_True by lia. f_equal. apply IH. lia. }
  apply H. lia.
Qed.

Lemma round_dispatches probes s k :
  (k <= length (Monitor.providers (monitor s)))%nat ->
  round_steps probes (round_start s)
    (mkRound (foldl (fun s i => testProvider_dispatch i s) s (seq 0 k)) k (seq 0 k) false).
Proof.
  induction k as [|k IH]; intros Hk; [apply steps_refl|].
  eapply steps_snoc; [apply IH; lia|].
  rewrite seq_S, foldl_app. simpl.
  apply (step_dispatch probes
           (mkRound (foldl (fun s i => testProvider_dispatch i s) s (seq 0 k)) k (seq 0 k) false)).
  simpl. rewrite dispatch_all_length. lia.
Qed.

Lemma round_settles probes s k :
  let n := length (Monitor.providers (monitor s)) in
  let s1 := foldl (fun s i => testProvider_dispatch i s) s (seq 0 n) in
  (k <= n)%nat ->
  round_steps probes (round_start s)
    (mkRound (foldl (fun s i => testProvider_settle i (probes i) s) s1 (seq 0 k))
       n (seq k (n - k)) false).
Proof.
  intros n s1. induction k as [|k IH]; intros Hk.
  - simpl. rewrite Nat.sub_0_r. apply round_dispatches. lia.
  - eapply steps_snoc; [apply IH; lia|].
    rewrite seq_S, foldl_app. simpl.
    replace (n - k)%nat with (S (n - S k)) by lia.
    rewrite <- filter_ne_seq.
    apply (step_settle probes
             (mkRound (foldl (fun s i => testProvider_settle i (probes i) s) s1 (seq 0 k))
                n (seq k (S (n - S k))) false) k).
    simpl. apply list_elem_of_here.
Qed.

Lemma runTests_round probes s :
  round_steps probes (round_start s)
    (mkRound (runTests probes s) (length (Monitor.providers (monitor s))) [] true).
Proof.
  unfold runTests.
  set (n := length (Monitor.providers (monitor s))).
  set (s1 := foldl (fun s i => testProvider_dispatch i s) s (seq 0 n)).
  set (s2 := foldl (fun s i => testProvider_settle i (probes i) s) s1 (seq 0 n)).
  eapply steps_snoc.
  - pose proof (round_settles probes s n (Nat.le_refl _)) as H. simpl in H.
    rewrite Nat.sub_diag in H. exact H.
  - apply (step_join probes (mkRound s2 n [] false)); simpl; try reflexivity.
    unfold s2, s1. rewrite settle_all_length, dispatch_all_length. reflexivity.
Qed.

(** What the probe of a provider makes of it. *)

Lemma measure_not_NaN mode pr p b l : measure mode pr p = Return (b, l) -> JS.isNaN l = false.
Proof.
  unfold measure. destruct (negb (performance pr)); [discriminate|].
  destruct (if String.eqb mode "ping" then _ else _) as [b'|e]; simpl; [|discriminate].
  destruct (JS.isNaN (elapsed pr)) eqn:E; simpl; [discriminate|].
  destruct (JS.lt (elapsed pr) (JS.Fin 0)); [discriminate|].
  intros [= _ <-]. exact E.
Qed.

Lemma settle_provider_counters h mode pr p :
  let p' := (settle_provider h mode pr p).2 in
  Provider.config p' = Provider.config p /\
  if probe_succeeds mode pr p
  then Provider.status p' = online /\
       (Stats.successes (Provider.stats p) <> JS.NaN ->
        Stats.successes (Provider.stats p')
          = JS.add (Stats.successes (Provider.stats p)) (JS.Fin 1)) /\
       Stats.failures (Provider.stats p') = Stats.failures (Provider.stats p)
  else Provider.status p' = offline /\
       (Stats.failures (Provider.stats p) <> JS.NaN ->
        Stats.failures (Provider.stats p')
          = JS.add (Stats.failures (Provider.stats p)) (JS.Fin 1)) /\
       Stats.successes (Provider.stats p') = Stats.successes (Provider.stats p).
Proof.
  unfold settle_provider, probe_succeeds.
  destruct (measure mode pr p) as [[[] l]|e] eqn:Em.
  - apply measure_not_NaN in Em.
    assert (E : true && negb (JS.isNaN l) = true) by (rewrite Em; reflexivity).
    rewrite (updateStats_success _ _ _ _ _ E).
    destruct (Arr.isArray _ _); cbn -[JS.add JS.or]; repeat split;
      intros Hn; apply add_or_zero; assumption.
  - rewrite (updateStats_failure h p JS.VNull false (now pr)) by reflexivity.
    cbn -[JS.add JS.or]. repeat split. intros Hn; apply add_or_zero; assumption.
  - rewrite (updateStats_failure h p JS.VNull false (now pr)) by reflexivity.
    cbn -[JS.add JS.or]. repeat split. intros Hn; apply add_or_zero; assumption.
Qed.

(** C4: a round increments [totalTests] by exactly one, at the join, which
    comes only when every probe is dispatched and none is pending; each
    provider is then what its own probe made of it, whatever the other
    probes did. *)
Theorem runTests_all_settled (probes : nat -> Probe) (s : State) :
  let n := length (Monitor.providers (monitor s)) in
  let mode := Monitor.testMode (monitor s) in
  round_steps probes (round_start s) (mkRound (runTests probes s) n [] true) /\
  forall r, round_steps probes (round_start s) r ->
    (joined r = false ->
     Monitor.totalTests (monitor (state r)) = Monitor.totalTests (monitor s)) /\
    (joined r = true ->
     Monitor.totalTests (monitor (state r))
       = JS.add (Monitor.totalTests (monitor s)) (JS.Fin 1) /\
     dispatched r = n /\ pending r = [] /\
     forall i p0, Monitor.providers (monitor s) !! i = Some p0 ->
       exists p', Monitor.providers (monitor (state r)) !! i = Some p' /\
         Provider.config p' = Provider.config p0 /\
         if probe_succeeds mode (probes i) p0
         then Provider.status p' = online /\
              (Stats.successes (Provider.stats p0) <> JS.NaN ->
               Stats.successes (Provider.stats p')
                 = JS.add (Stats.successes (Provider.stats p0)) (JS.Fin 1)) /\
              Stats.failures (Provider.stats p') = Stats.failures (Provider.stats p0)
         else Provider.status p' = offline /\
              (Stats.failures (Provider.stats p0) <> JS.NaN ->
               Stats.failures (Provider.stats p')
                 = JS.add (Stats.failures (Provider.stats p0)) (JS.Fin 1)) /\
              Stats.successes (Provider.stats p') = Stats.successes (Provider.stats p0)).
Proof.
  intros n mode. split; [apply runTests_round|].
  intros r Hr. apply round_inv_steps in Hr.
  destruct Hr as (Hlen & Hmode & Hd & Hnd & Hlt & Hj & Hps).
  split; intros Hjoined; rewrite Hjoined in Hj; [exact Hj|].
  destruct Hj as (Ht & Hdn & Hpn).
  split; [assumption|]. split; [assumption|]. split; [assumption|].
  intros i p0 Hp0. destruct (Hps _ _ Hp0) as (_ & _ & Hset).
  destruct Hset as [h Hh].
  - rewrite Hdn. apply lookup_lt_Some in Hp0. assumption.
  - rewrite Hpn. intros Hin. inversion Hin.
  - eexists. split; [exact Hh|].
    apply (settle_provider_counters h mode (probes i) (Provider.set_status testing p0)).
Qed.

(** A round of three providers, the second of which times out: the
    counter is 1, the first and the third provider are online with one
    success each, the second is offline with one failure. *)
Example runTests_timeout_round :
  let s := runTests timeout_round three_providers in
  Monitor.totalTests (monitor s) = JS.Fin 1 /\
  map (fun p => (Provider.status p, Stats.successes (Provider.stats p),
                 Stats.failures (Provider.stats p), Stats.current (Provider.stats p)))
    (Monitor.providers (monitor s))
  = [ (online, JS.Fin 1, JS.Fin 0, Some (JS.Fin 120));
      (offline, JS.Fin 0, JS.Fin 1, None);
      (online, JS.Fin 1, JS.Fin 0, Some (JS.Fin 120)) ].
Proof. split; reflexivity. Qed.

(** * Further properties of the monitor *)

(** ** [getAverageLatency] *)

Lemma omap_cons {A B} (f : A -> option B) (x : A) (l : list A) :
  omap f (x :: l) = match f x with Some y => y :: omap f l | None => omap f l end.
Proof. reflexivity. Qed.

Lemma online_currents (ps : list Provider.t) (cs : list Z) :
  omap (fun p => Stats.current (Provider.stats p)) ps = map JS.Fin cs ->
  omap (fun p => Stats.current (Provider.stats p))
    (filter (fun p => has_current p = true) ps) = map JS.Fin cs /\
  length (filter (fun p => has_current p = true) ps) = length cs.
Proof.
  revert cs. induction ps as [|p ps IH]; intros cs H.
  - destruct cs; [split; reflexivity | discriminate].
  - rewrite filter_cons. rewrite omap_cons in H.
    destruct (Stats.current (Provider.stats p)) as [c|] eqn:Ec.
    + destruct cs as [|z cs]; [discriminate|]. injection H as -> H.
      destruct (IH cs H) as [IH1 IH2].
      rewrite decide_True by (unfold has_current; rewrite Ec; reflexivity).
      rewrite omap_cons, Ec, IH1.
      cbn [length]. rewrite IH2. split; reflexivity.
    + rewrite decide_False by (unfold has_current; rewrite Ec; discriminate).
      apply IH. assumption.
Qed.

Lemma foldl_add_current (ps : list Provider.t) : forall (cs : list Z) acc,
  Forall (fun p => has_current p = true) ps ->
  omap (fun p => Stats.current (Provider.stats p)) ps = map JS.Fin cs ->
  foldl add_current (JS.Fin acc) ps = JS.Fin (acc + sum cs).
Proof.
  induction ps as [|p ps IH]; intros cs acc Hall H.
  - destruct cs; [|discriminate]. simpl. f_equal. unfold sum; simpl. lia.
  - inversion_clear Hall as [|? ? Hp Hps]. unfold has_current in Hp.
    rewrite omap_cons in H. cbn [foldl]. unfold add_current at 2.
    destruct (Stats.current (Provider.stats p)) as [c|]; [|discriminate].
    destruct cs as [|z cs]; [discriminate|]. injection H as -> H.
    cbn [JS.add]. rewrite (IH cs (acc + z) Hps H). f_equal. unfold sum; simpl. lia.
Qed.

Lemma sum_bounds (cs : list Z) lo hi :
  Forall (fun c => lo <= c <= hi) cs ->
  Z.of_nat (length cs) * lo <= sum cs <= Z.of_nat (length cs) * hi.
Proof.
  unfold sum. induction 1 as [|c cs Hc _ IH]; simpl length; simpl foldr; [lia|].
  rewrite Nat2Z.inj_succ. nia.
Qed.

Lemma rounded_mean_bounds a s n lo hi :
  0 < n -> is_rounded_mean a s n -> n * lo <= s <= n * hi -> lo <= a <= hi.
Proof. unfold is_rounded_mean. intros Hn [H1 H2] [H3 H4]. split; nia. Qed.

(** What [getAverageLatency] returns when every shown latency is finite. *)
Lemma getAverageLatency_finite (m : Monitor.t) (cs : list Z) :
  currents m = map JS.Fin cs ->
  getAverageLatency m =
    match cs with
    | [] => None
    | _ => Some (JS.Fin ((2 * sum cs + Z.of_nat (length cs)) / (2 * Z.of_nat (length cs))))
    end.
Proof.
  unfold currents, getAverageLatency. intros H.
  destruct (online_currents _ _ H) as [Ho Hl].
  pose proof (foldl_add_current (filter (fun p => has_current p = true) (Monitor.providers m))
                cs 0) as Hsum.
  destruct (filter _ (Monitor.providers m)) as [|p ps] eqn:Ef.
  - destruct cs; [reflexivity | discriminate].
  - destruct cs as [|z cs]; [discriminate|].
    rewrite Hsum; [| rewrite <- Ef; apply Forall_forall; intros q Hq;
                     apply list_elem_of_filter in Hq; apply Hq | assumption].
    rewrite Hl. cbn [JS.round_div].
    destruct (Z.eqb_spec (Z.of_nat (length (z :: cs))) 0) as [E|_]; [simpl in E; lia|].
    reflexivity.
Qed.

(** X1: [getAverageLatency] is [null] exactly when no provider shows a
    latency, and otherwise the mean of the shown latencies rounded to the
    nearest integer, a provider without a latency left out; the mean lies
    between any two bounds of the shown latencies. *)
Theorem getAverageLatency_rounded_mean (m : Monitor.t) (cs : list Z) :
  currents m = map JS.Fin cs ->
  match getAverageLatency m with
  | None => cs = []
  | Some avg =>
      cs <> [] /\
      exists a, avg = JS.Fin a /\
        is_rounded_mean a (sum cs) (Z.of_nat (length cs)) /\
        forall lo hi, Forall (fun c => lo <= c <= hi) cs -> lo <= a <= hi
  end.
Proof.
  intros H. rewrite (getAverageLatency_finite m cs H).
  destruct cs as [|z cs]; [reflexivity|].
  split; [discriminate|]. eexists. split; [reflexivity|].
  assert (Hn : 0 < Z.of_nat (length (z :: cs))) by (simpl; lia).
  split; [apply rounded_mean_div; assumption|].
  intros lo hi Hb. eapply rounded_mean_bounds; [exact Hn | | apply sum_bounds; exact Hb].
  apply rounded_mean_div; assumption.
Qed.

Lemma getAverageLatency_rounded_mean_witness :
  currents mixed_monitor = map JS.Fin [100; 200] /\
  getAverageLatency mixed_monitor = Some (JS.Fin 150) /\
  match getAverageLatency mixed_monitor with
  | None => [100; 200] = []
  | Some avg =>
      [100; 200] <> [] /\
      exists a, avg = JS.Fin a /\
        is_rounded_mean a (sum [100; 200]) (Z.of_nat (length [100; 200])) /\
        forall lo hi, Forall (fun c => lo <= c <= hi) [100; 200] -> lo <= a <= hi
  end.
Proof.
  split; [reflexivity|]. split; [reflexivity|].
  apply (getAverageLatency_rounded_mean mixed_monitor [100; 200]). reflexivity.
Defined.

(** ** The two queries together *)

Lemma lt_irrefl a : JS.lt a a = false.
Proof. destruct a; simpl; try reflexivity. apply Z.ltb_irrefl. Qed.

(** The provider that [getFastestProvider] returns is a provider of the
    monitor, and no shown latency is below its own. *)
Lemma fastest_lower_bound (m : Monitor.t) f :
  Forall current_not_NaN (Monitor.providers m) ->
  getFastestProvider m = Some f ->
  f ∈ Monitor.providers m /\
  exists c, Stats.current (Provider.stats f) = Some c /\
    forall q d, q ∈ Monitor.providers m ->
      Stats.current (Provider.stats q) = Some d -> JS.lt d c = false.
Proof.
  intros Hnan. unfold getFastestProvider.
  destruct (filter _ (Monitor.providers m)) as [|first rest] eqn:Ef; [discriminate|].
  intros [= <-].
  assert (Hall : Forall (fun p => has_current p = true /\ current_not_NaN p) (first :: rest)).
  { rewrite <- Ef. apply Forall_forall. intros p Hp.
    apply list_elem_of_filter in Hp as [Hc Hin]. split; [assumption|].
    rewrite Forall_forall in Hnan. auto. }
  destruct (reduce_first_fastest rest first Hall) as (b & a & Heq & c & Hc & Hb & Ha).
  set (f := foldl _ first rest) in *.
  assert (Hf : f ∈ first :: rest).
  { rewrite Heq. apply elem_of_app. right. apply list_elem_of_here. }
  split.
  { rewrite <- Ef in Hf. apply list_elem_of_filter in Hf. apply Hf. }
  exists c. split; [assumption|]. intros q d Hq Hd.
  assert (Hqo : q ∈ b ++ f :: a).
  { rewrite <- Heq, <- Ef. apply list_elem_of_filter. split; [|assumption].
    unfold has_current. rewrite Hd. reflexivity. }
  apply elem_of_app in Hqo as [Hqb | Hqa].
  - rewrite Forall_forall in Hb. apply lt_asym. apply (Hb q Hqb d Hd).
  - apply elem_of_cons in Hqa as [-> | Hqa].
    + rewrite Hc in Hd. injection Hd as <-. apply lt_irrefl.
    + rewrite Forall_forall in Ha. apply (Ha q Hqa d Hd).
Qed.

Lemma sum_lower (cs : list Z) lo :
  Forall (fun c => lo <= c) cs -> Z.of_nat (length cs) * lo <= sum cs.
Proof.
  unfold sum. induction 1 as [|c cs Hc _ IH]; simpl length; simpl foldr; [lia|].
  rewrite Nat2Z.inj_succ. nia.
Qed.

Lemma queries_without_current (m : Monitor.t) :
  Forall (fun p => Stats.current (Provider.stats p) = None) (Monitor.providers m) ->
  getFastestProvider m = None /\ getAverageLatency m = None.
Proof.
  intros H. unfold getFastestProvider, getAverageLatency.
  assert (E : filter (fun p => has_current p = true) (Monitor.providers m) = []).
  { induction H as [|p ps Hp _ IH]; [reflexivity|].
    rewrite filter_cons, decide_False; [exact IH|].
    unfold has_current. rewrite Hp. discriminate. }
  rewrite E. split; reflexivity.
Qed.

(** X2: when every shown latency is finite, the two queries agree: both
    are [null] together, and otherwise the provider that
    [getFastestProvider] returns is one of the monitor's providers and
    its latency is not above the average that [getAverageLatency]
    returns. *)
Theorem fastest_not_above_average (m : Monitor.t) (cs : list Z) :
  currents m = map JS.Fin cs ->
  match getFastestProvider m, getAverageLatency m with
  | None, None => cs = []
  | Some f, Some avg =>
      f ∈ Monitor.providers m /\
      exists c a, Stats.current (Provider.stats f) = Some (JS.Fin c) /\
                  avg = JS.Fin a /\ c <= a
  | _, _ => False
  end.
Proof.
  intros H.
  assert (Hfin : forall q d, q ∈ Monitor.providers m ->
                   Stats.current (Provider.stats q) = Some d -> exists z, d = JS.Fin z /\ z ∈ cs).
  { intros q d Hq Hd.
    assert (Hin : d ∈ currents m).
    { unfold currents. apply list_elem_of_omap. eauto. }
    rewrite H in Hin. apply list_elem_of_fmap in Hin as (z & -> & Hz). eauto. }
  assert (Hnan : Forall current_not_NaN (Monitor.providers m)).
  { apply Forall_forall. intros q Hq Hc. destruct (Hfin q _ Hq Hc) as (z & Hz & _). discriminate. }
  rewrite (getAverageLatency_finite m cs H).
  destruct (getFastestProvider m) as [f|] eqn:Ef.
  - destruct (fastest_lower_bound m f Hnan Ef) as (Hf & c & Hc & Hlow).
    destruct (Hfin f c Hf Hc) as (zc & -> & Hzc).
    destruct cs as [|z cs]; [inversion Hzc|].
    split; [assumption|]. exists zc. eexists. split; [assumption|]. split; [reflexivity|].
    assert (Hn : 0 < Z.of_nat (length (z :: cs))) by (simpl; lia).
    pose proof (rounded_mean_div (sum (z :: cs)) _ Hn) as [Hr _].
    assert (Hs : Z.of_nat (length (z :: cs)) * zc <= sum (z :: cs)).
    { apply sum_lower. apply Forall_forall. intros d Hd.
      assert (Hdin : JS.Fin d ∈ currents m).
      { rewrite H. apply list_elem_of_fmap. eauto. }
      unfold currents in Hdin. apply list_elem_of_omap in Hdin as (q & Hq & Hqd).
      specialize (Hlow q _ Hq Hqd). simpl in Hlow. apply Z.ltb_ge in Hlow. exact Hlow. }
    nia.
  - destruct cs as [|z cs]; [reflexivity|].
    unfold getFastestProvider in Ef.
    destruct (filter _ (Monitor.providers m)) as [|first rest] eqn:Eo; [|discriminate].
    assert (Hz : JS.Fin z ∈ currents m) by (rewrite H; apply list_elem_of_here).
    unfold currents in Hz. apply list_elem_of_omap in Hz as (q & Hq & Hqd).
    assert (Hqo : q ∈ filter (fun p => has_current p = true) (Monitor.providers m)).
    { apply list_elem_of_filter. split; [|assumption]. unfold has_current. rewrite Hqd. reflexivity. }
    rewrite Eo in Hqo. inversion Hqo.
Qed.

Lemma fastest_not_above_average_witness :
  currents mixed_monitor = map JS.Fin [100; 200] /\
  match getFastestProvider mixed_monitor, getAverageLatency mixed_monitor with
  | None, None => [100; 200] = []
  | Some f, Some avg =>
      f ∈ Monitor.providers mixed_monitor /\
      exists c a, Stats.current (Provider.stats f) = Some (JS.Fin c) /\
                  avg = JS.Fin a /\ c <= a
  | _, _ => False
  end.
Proof.
  split; [reflexivity|].
  apply (fastest_not_above_average mixed_monitor [100; 200]). reflexivity.
Defined.

(** X3: after [clearStats] no provider shows a latency: both queries
    return [null], and every record of the snapshot is idle with all
    counters at zero. *)
Theorem clearStats_then_queries (s : State) :
  let m := monitor (clearStats_state s) in
  getFastestProvider m = None /\
  getAverageLatency m = None /\
  length (getStats m) = length (Monitor.providers (monitor s)) /\
  Forall (fun snap =>
            Snapshot.status snap = idle /\
            Stats.current (Snapshot.stats snap) = None /\
            Stats.count (Snapshot.stats snap) = JS.Fin 0 /\
            Stats.successes (Snapshot.stats snap) = JS.Fin 0 /\
            Stats.failures (Snapshot.stats snap) = JS.Fin 0)
    (getStats m).
Proof.
  unfold clearStats_state, clearStats. rewrite clear_each_closed. cbn [monitor].
  set (ps := imap _ (Monitor.providers (monitor s))).
  assert (Hps : Forall (fun p => Provider.status p = idle /\ exists a, Provider.stats p = Stats.initial a) ps).
  { apply Forall_forall. intros p Hp. apply elem_of_lookup_imap in Hp as (i & q & -> & _).
    split; [reflexivity|]. eexists. reflexivity. }
  assert (Hq : getFastestProvider (Monitor.set_totalTests (JS.Fin 0)
                                     (Monitor.set_providers ps (monitor s))) = None /\
               getAverageLatency (Monitor.set_totalTests (JS.Fin 0)
                                    (Monitor.set_providers ps (monitor s))) = None).
  { apply queries_without_current. simpl. eapply Forall_impl; [exact Hps|].
    simpl. intros p [_ [a ->]]. reflexivity. }
  destruct Hq as [Hq1 Hq2].
  split; [assumption|]. split; [assumption|]. split.
  - unfold getStats. simpl. rewrite length_map. apply length_imap.
  - unfold getStats. simpl. apply Forall_fmap. eapply Forall_impl; [exact Hps|].
    simpl. intros p [Hs [a Ha]]. rewrite Ha. simpl. auto.
Qed.

(** ** The statistics of mixed sequences *)

Lemma samples_snoc calls c :
  samples (calls ++ [c]) =
    samples calls ++ match sample_of c with Some x => [x] | None => [] end.
Proof.
  unfold samples. induction calls as [|d calls IH].
  - simpl. destruct (sample_of c); reflexivity.
  - rewrite <- app_comm_cons, !omap_cons, IH. destruct (sample_of d); reflexivity.
Qed.

Lemma samples_length_le calls : (length (samples calls) <= length calls)%nat.
Proof.
  induction calls as [|c calls IH]; [reflexivity|].
  rewrite samples_cons. destruct (sample_of c); simpl; lia.
Qed.

Lemma updateStats_step h p lat success now :
  match sample_of (lat, success, now) with
  | Some x =>
      exists a, Provider.stats (updateStats h p lat success now).2
                = Stats.set_history a (folded (Provider.stats p) (latency x))
  | None =>
      Provider.stats (updateStats h p lat success now).2
      = Stats.set_current None
          (Stats.set_failures
             (JS.add (JS.or (Stats.failures (Provider.stats p)) (JS.Fin 0)) (JS.Fin 1))
             (Stats.set_count
                (JS.add (JS.or (Stats.count (Provider.stats p)) (JS.Fin 0)) (JS.Fin 1))
                (Provider.stats p)))
  end.
Proof.
  destruct (sample_of (lat, success, now)) as [x|] eqn:E.
  - apply sample_of_Some in E as (l & -> & E & ->). simpl.
    apply updateStats_success_fields. assumption.
  - apply sample_of_None in E. rewrite (updateStats_failure _ _ _ _ _ E). reflexivity.
Qed.

Lemma counted_step k ls c h p :
  counted (Provider.stats p) k ls ->
  match sample_of c with
  | Some x => counted (Provider.stats (updateStats h p c.1.1 c.1.2 c.2).2) k (ls ++ [latency x])
  | None => counted (Provider.stats (updateStats h p c.1.1 c.1.2 c.2).2) (S k) ls
  end.
Proof.
  destruct c as [[lat success] now]. intros (Hc & Hs & Hf). cbn [fst snd].
  pose proof (updateStats_step h p lat success now) as Hstep.
  destruct (sample_of (lat, success, now)) as [x|].
  - destruct Hstep as [a ->]. unfold counted, folded. cbn -[JS.add JS.or].
    rewrite Hc, Hs, Hf, !or_zero_fin, length_app. cbn [JS.add length].
    repeat split; f_equal; lia.
  - rewrite Hstep. unfold counted. cbn -[JS.add JS.or].
    rewrite Hc, Hs, Hf, !or_zero_fin. cbn [JS.add].
    repeat split; f_equal; lia.
Qed.

(** X4: from the initial stats, after any sequence of calls [count] is the
    number of calls, [successes] the number of recorded samples,
    [failures] the number of the other calls, and [current] is the latency
    of the last call if it recorded one and [null] otherwise. *)
Theorem updateStats_counts_calls (c : Config.t) (calls : list Call) :
  let s := Provider.stats
             (apply_updates (fresh_provider c).1 (fresh_provider c).2 calls).2 in
  Stats.count s = JS.Fin (Z.of_nat (length calls)) /\
  Stats.successes s = JS.Fin (Z.of_nat (length (samples calls))) /\
  Stats.failures s = JS.Fin (Z.of_nat (length calls - length (samples calls))) /\
  Stats.current s = last_recorded calls.
Proof.
  induction calls as [|[[lat success] now] calls IH] using rev_ind.
  - repeat split.
  - destruct IH as (Hc & Hs & Hf & _).
    assert (Hle : (length (samples calls) <= length calls)%nat).
    { apply samples_length_le. }
    rewrite apply_updates_snoc.
    set (r := apply_updates (fresh_provider c).1 (fresh_provider c).2 calls) in *.
    assert (Hcnt : counted (Provider.stats r.2) (length calls - length (samples calls))
                     (latency <$> samples calls)).
    { unfold counted. rewrite length_fmap, Hc, Hs, Hf.
      repeat split; f_equal; lia. }
    pose proof (counted_step _ _ (lat, success, now) r.1 r.2 Hcnt) as Hn.
    pose proof (updateStats_step r.1 r.2 lat success now) as Hstep.
    cbn [fst snd] in Hn. cbv zeta.
    unfold last_recorded. rewrite last_snoc, samples_snoc, !length_app.
    destruct (sample_of (lat, success, now)) as [x|].
    + destruct Hn as (Hc' & Hs' & Hf'). rewrite length_app, length_fmap in Hc', Hs'.
      rewrite Hc', Hs', Hf'. destruct Hstep as [a ->].
      simpl. repeat split; f_equal; lia.
    + destruct Hn as (Hc' & Hs' & Hf'). rewrite length_fmap in Hc', Hs'.
      rewrite Hc', Hs', Hf', Hstep.
      simpl. repeat split; f_equal; lia.
Qed.

Lemma aggregated_snoc s ls l :
  Stats.successes s = JS.Fin (Z.of_nat (length (ls ++ [l]))) ->
  Stats.total s = JS.Fin (sum (ls ++ [l])) ->
  (exists a, Stats.avg s = JS.Fin a /\
             is_rounded_mean a (sum (ls ++ [l])) (Z.of_nat (length (ls ++ [l])))) ->
  (exists m, Stats.max s = JS.Fin m /\ is_max m (ls ++ [l])) ->
  aggregated s (ls ++ [l]).
Proof.
  intros Hs Ht Ha Hm. unfold aggregated.
  split; [assumption|]. split; [assumption|].
  destruct (ls ++ [l]) eqn:E; [destruct ls; discriminate|]. auto.
Qed.

Lemma folded_aggregated s ls l a :
  aggregated s ls -> 0 <= l ->
  aggregated (Stats.set_history a (folded s (JS.Fin l))) (ls ++ [l]).
Proof.
  intros (Hs & Ht & Hrest) Hl.
  assert (Hmax : (ls = [] /\ Stats.max s = JS.Fin 0) \/
                 exists m, Stats.max s = JS.Fin m /\ is_max m ls).
  { destruct ls; [left; split; [reflexivity | apply Hrest] | right; apply Hrest]. }
  clear Hrest.
  apply aggregated_snoc; unfold folded; cbn -[JS.add JS.or JS.max JS.min JS.round_div JS.gt Z.mul];
    rewrite ?Hs, ?Ht, ?or_zero_fin, ?length_app, ?sum_snoc; change (length [l]) with 1%nat;
    cbn [JS.add];
    replace (Z.of_nat (length ls + 1)) with (Z.of_nat (length ls) + 1) by lia.
  - reflexivity.
  - reflexivity.
  - remember (Z.of_nat (length ls) + 1) as n eqn:En.
    assert (Hn : 0 < n) by lia. clear En.
    cbn [JS.gt JS.lt JS.round_div].
    destruct (Z.ltb_spec 0 n); [|lia]. destruct (Z.eqb_spec n 0); [lia|].
    eexists; split; [reflexivity|]. apply rounded_mean_div; assumption.
  - destruct Hmax as [[-> ->] | (m & -> & Hm)]; rewrite or_zero_fin, js_max_fin.
    + exists l. split; [f_equal; lia | apply is_max_singleton].
    + eexists; split; [reflexivity | apply is_max_snoc; assumption].
Qed.

Lemma failed_aggregated s ls c f :
  aggregated s ls ->
  aggregated (Stats.set_current None (Stats.set_failures f (Stats.set_count c s))) ls.
Proof. intros H. exact H. Qed.

(** X5: failed probes do not disturb the aggregates.  From the initial
    stats, after any sequence of calls whose recorded latencies are
    finite and not negative, [total] is the sum of the recorded
    latencies, [avg] their rounded mean and [max] their maximum; when
    nothing was recorded [avg], [max] and [min] are as in the initial
    stats. *)
Theorem updateStats_aggregates_successes (c : Config.t) (calls : list Call) (ls : list Z) :
  latency <$> samples calls = JS.Fin <$> ls ->
  Forall (fun l => 0 <= l) ls ->
  aggregated
    (Provider.stats (apply_updates (fresh_provider c).1 (fresh_provider c).2 calls).2) ls.
Proof.
  revert ls. induction calls as [|[[lat success] now] calls IH] using rev_ind; intros ls Hls Hpos.
  - destruct ls; [|discriminate]. repeat split.
  - rewrite apply_updates_snoc.
    set (r := apply_updates (fresh_provider c).1 (fresh_provider c).2 calls) in *.
    pose proof (updateStats_step r.1 r.2 lat success now) as Hstep.
    rewrite samples_snoc in Hls.
    destruct (sample_of (lat, success, now)) as [x|].
    + rewrite fmap_app in Hls. symmetry in Hls.
      apply fmap_app_inv in Hls as (ls1 & ls2 & H1 & H2 & ->).
      destruct ls2 as [|l [|? ?]]; try discriminate. simpl in H2. injection H2 as H2.
      apply Forall_app in Hpos as [Hpos1 Hpos2]. inversion_clear Hpos2 as [|? ? Hl _].
      destruct Hstep as [a ->]. rewrite H2.
      apply folded_aggregated; [|assumption]. apply IH; assumption.
    + rewrite app_nil_r in Hls. rewrite Hstep. apply failed_aggregated.
      apply IH; assumption.
Qed.

Lemma updateStats_aggregates_successes_witness :
  aggregated
    (Provider.stats
       (apply_updates (fresh_provider openai).1 (fresh_provider openai).2 mixed_calls).2)
    [120; 80].
Proof.
  apply (updateStats_aggregates_successes openai mixed_calls [120; 80]).
  - reflexivity.
  - repeat (apply Forall_cons; split; [lia|]). apply Forall_nil_2.
Defined.

(** ** The outcome of a probe *)

(** X6: a probe succeeds exactly when the Performance API is there, the
    provider has an endpoint and a ping path, the network call counts as
    reachable and the measured time is neither [NaN] nor negative; the
    test mode plays no part, [simple] and [full] being the ping test. *)
Theorem probe_succeeds_conditions (testMode : string) (pr : Probe) (p : Provider.t) :
  probe_succeeds testMode pr p =
    performance pr
    && truthy_str (Provider.endpoint p) && truthy_str (Provider.pingPath p)
    && ping_reaches pr && valid_elapsed pr.
Proof.
  unfold probe_succeeds, measure, simpleRequest, fullRequest, pingTest, ping_reaches,
    valid_elapsed, aborted.
  destruct (performance pr); [|reflexivity]. cbn [negb andb].
  assert (Hmode : forall (X : result bool),
            (if String.eqb testMode "ping" then X
             else if String.eqb testMode "simple" then X else X) = X).
  { intros X. destruct (String.eqb testMode "ping"), (String.eqb testMode "simple"); reflexivity. }
  rewrite Hmode.
  destruct (truthy_str (Provider.endpoint p)), (truthy_str (Provider.pingPath p)),
    (abortController pr), (fetch pr) as [[]|e]; cbn;
    try destruct (String.eqb (err_name e) "AbortError"); cbn;
    destruct (JS.isNaN (elapsed pr)), (JS.lt (elapsed pr) (JS.Fin 0)); reflexivity.
Qed.

Lemma measure_elapsed mode pr p b l :
  measure mode pr p = Return (b, l) -> l = elapsed pr.
Proof.
  unfold measure. destruct (negb (performance pr)); [discriminate|].
  destruct (if String.eqb mode "ping" then _ else _) as [b'|e]; simpl; [|discriminate].
  destruct (JS.isNaN (elapsed pr) || JS.lt (elapsed pr) (JS.Fin 0)); [discriminate|].
  intros [= _ <-]. reflexivity.
Qed.

Lemma pushed_last (h : heap) a x xs :
  h !! a = Some xs -> last (Arr.elems (pushed h a x) a) = Some x.
Proof.
  intros Ha. unfold Arr.elems. rewrite (pushed_lookup h a x xs Ha). simpl.
  destruct (Nat.ltb_spec 100 (length (xs ++ [x]))) as [Hgt|_]; [|apply last_snoc].
  destruct xs as [|y xs]; [simpl in Hgt; lia|]. simpl. apply last_snoc.
Qed.

Lemma settle_provider_outcome h mode pr p :
  let r := settle_provider h mode pr p in
  Provider.config r.2 = Provider.config p /\
  if probe_succeeds mode pr p
  then Provider.status r.2 = online /\
       Stats.current (Provider.stats r.2) = Some (elapsed pr) /\
       last (Arr.elems r.1 (Stats.history (Provider.stats r.2)))
         = Some (mkSample (now pr) (elapsed pr))
  else Provider.status r.2 = offline /\
       Stats.current (Provider.stats r.2) = None /\
       r.1 = h /\
       Stats.history (Provider.stats r.2) = Stats.history (Provider.stats p).
Proof.
  unfold settle_provider, probe_succeeds.
  destruct (measure mode pr p) as [[[] l]|e] eqn:Em.
  - pose proof (measure_elapsed _ _ _ _ _ Em) as ->.
    apply measure_not_NaN in Em.
    assert (E : true && negb (JS.isNaN (elapsed pr)) = true) by (rewrite Em; reflexivity).
    rewrite (updateStats_success _ _ _ _ _ E). unfold Arr.isArray.
    destruct (h !! Stats.history (Provider.stats p)) as [xs|] eqn:Ha; cbn -[pushed].
    + repeat split. apply (pushed_last h _ _ xs Ha).
    + repeat split. apply (pushed_last (h ++ [[]]) (length h) _ []).
      rewrite lookup_app_r by lia. rewrite Nat.sub_diag. reflexivity.
  - rewrite (updateStats_failure h p JS.VNull false (now pr)) by reflexivity.
    repeat split.
  - rewrite (updateStats_failure h p JS.VNull false (now pr)) by reflexivity.
    repeat split.
Qed.

Lemma testProvider_at i pr s p :
  Monitor.providers (monitor s) !! i = Some p ->
  store (testProvider i pr s)
    = (settle_provider (store s) (Monitor.testMode (monitor s)) pr
         (Provider.set_status testing p)).1 /\
  Monitor.providers (monitor (testProvider i pr s))
    = <[i := (settle_provider (store s) (Monitor.testMode (monitor s)) pr
                (Provider.set_status testing p)).2]> (Monitor.providers (monitor s)).
Proof.
  intros Hp. unfold testProvider. rewrite (dispatch_Some _ _ _ Hp).
  apply lookup_lt_Some in Hp as Hlt.
  erewrite settle_Some; [|simpl; apply list_lookup_insert_eq; assumption].
  simpl. split; [reflexivity|]. apply list_insert_insert_eq.
Qed.

(** X7: [testProvider] leaves the provider online with the measured time
    as its [current] and as the newest sample of its history when the
    probe succeeds, and offline with [current] at [null], the store and
    the history reference untouched, when it does not; the identity fields
    stay. *)
Theorem testProvider_outcome i pr s p :
  Monitor.providers (monitor s) !! i = Some p ->
  exists p',
    Monitor.providers (monitor (testProvider i pr s)) !! i = Some p' /\
    Provider.config p' = Provider.config p /\
    if probe_succeeds (Monitor.testMode (monitor s)) pr p
    then Provider.status p' = online /\
         Stats.current (Provider.stats p') = Some (elapsed pr) /\
         last (Arr.elems (store (testProvider i pr s)) (Stats.history (Provider.stats p')))
           = Some (mkSample (now pr) (elapsed pr))
    else Provider.status p' = offline /\
         Stats.current (Provider.stats p') = None /\
         store (testProvider i pr s) = store s /\
         Stats.history (Provider.stats p') = Stats.history (Provider.stats p).
Proof.
  intros Hp. destruct (testProvider_at i pr s p Hp) as [Hs Hps].
  apply lookup_lt_Some in Hp as Hlt.
  eexists. split; [rewrite Hps; apply list_lookup_insert_eq; assumption|].
  rewrite Hs.
  apply (settle_provider_outcome (store s) (Monitor.testMode (monitor s)) pr
           (Provider.set_status testing p)).
Qed.

Lemma testProvider_outcome_witness :
  exists p',
    Monitor.providers (monitor (testProvider 1 probe_timeout three_providers)) !! 1%nat
      = Some p' /\
    Provider.config p' = anthropic /\
    Provider.status p' = offline /\
    Stats.current (Provider.stats p') = None /\
    store (testProvider 1 probe_timeout three_providers) = store three_providers.
Proof.
  destruct (testProvider_outcome 1 probe_timeout three_providers
              (Provider.mk anthropic (Stats.initial 1%nat) idle) eq_refl)
    as (p' & Hp' & Hc & Ho).
  exists p'. simpl in Ho. destruct Ho as (H1 & H2 & H3 & _). auto.
Defined.

(** ** Invariants of the reachable states *)

Lemma instantiate_closed registry : forall h : heap,
  instantiate h registry =
    (h ++ replicate (length (omap id registry)) [],
     imap (fun i c => Provider.mk c (Stats.initial (length h + i)) idle) (omap id registry)).
Proof.
  induction registry as [|[c|] registry IH]; intros h.
  - simpl. rewrite app_nil_r. reflexivity.
  - cbn [instantiate Arr.alloc]. rewrite IH, omap_cons. cbn [id length replicate imap].
    f_equal.
    + rewrite <- (assoc_L (++)). reflexivity.
    + rewrite Nat.add_0_r. f_equal.
      apply imap_ext. intros i q _. simpl. rewrite length_app. simpl.
      do 2 f_equal. lia.
  - cbn [instantiate]. rewrite IH, omap_cons. reflexivity.
Qed.

Lemma own_history_fresh {A} (f : nat -> A -> Provider.t) (l : list A) (h : heap) :
  (forall i x, Stats.history (Provider.stats (f i x)) = (length h + i)%nat) ->
  own_history (h ++ replicate (length l) []) (imap f l).
Proof.
  intros Hf. split.
  - apply NoDup_alt. intros i j a Hi Hj.
    rewrite list_lookup_fmap, list_lookup_imap in Hi, Hj.
    destruct (l !! i) as [x|]; [|discriminate].
    destruct (l !! j) as [y|]; [|discriminate].
    simpl in Hi, Hj. rewrite Hf in Hi, Hj. injection Hi as <-. injection Hj as Hj. lia.
  - apply Forall_forall. intros p Hp.
    apply elem_of_lookup_imap in Hp as (i & x & -> & Hx).
    exists []. rewrite Hf. split; [|simpl; lia].
    rewrite lookup_app_r by lia.
    replace (length h + i - length h)%nat with i by lia.
    apply lookup_replicate_2. apply lookup_lt_Some in Hx. assumption.
Qed.

(** C9, amended: the constructor drops the [null] entries of the registry
    and only those; every record is instantiated, in registry order, with
    its fields as they are, the status idle and the initial stats.  The
    history of these stats is an empty array that the constructor makes
    for this provider: it was not in the store before, no two providers
    have the same one, and the arrays that were in the store stay as they
    are. *)
Theorem constructor_instantiates_records (h : heap) (registry : list (option Config.t)) :
  let s := (constructor h (Some registry)).1 in
  let m := (constructor h (Some registry)).2 in
  map Provider.config (Monitor.providers m) = omap id registry /\
  Forall (fun p => Provider.status p = idle /\
                   exists a, Provider.stats p = Stats.initial a /\
                             s !! a = Some [] /\ h !! a = None)
    (Monitor.providers m) /\
  NoDup ((fun p => Stats.history (Provider.stats p)) <$> Monitor.providers m) /\
  (forall a xs, h !! a = Some xs -> s !! a = Some xs) /\
  Monitor.totalTests m = JS.Fin 0.
Proof.
  unfold constructor.
  destruct (instantiate_configs registry h) as [H1 H2].
  pose proof (instantiate_extends registry h) as H3.
  pose proof (instantiate_closed registry h) as H4.
  destruct (instantiate h registry) as [h' ps]. simpl in *.
  split; [assumption|]. split; [assumption|]. split; [|split; [assumption|reflexivity]].
  injection H4 as _ ->.
  apply (own_history_fresh
           (fun i c => Provider.mk c (Stats.initial (length h + i)) idle) (omap id registry) h).
  reflexivity.
Qed.

Lemma pushed_lookup_ne (h : heap) a b x : a <> b -> pushed h a x !! b = h !! b.
Proof.
  intros Hne. unfold pushed, Arr.shift, Arr.push.
  destruct (100 <? _)%nat; rewrite ?list_lookup_alter_ne by assumption; reflexivity.
Qed.

(** What a call does to the store when the history is an array: the
    reference stays, the array stays within its bound, the other arrays
    stay as they are. *)
Lemma updateStats_store (h : heap) p lat success now xs :
  h !! Stats.history (Provider.stats p) = Some xs ->
  (length xs <= 100)%nat ->
  let r := updateStats h p lat success now in
  Stats.history (Provider.stats r.2) = Stats.history (Provider.stats p) /\
  (exists xs', r.1 !! Stats.history (Provider.stats p) = Some xs' /\ (length xs' <= 100)%nat) /\
  (forall b, b <> Stats.history (Provider.stats p) -> r.1 !! b = h !! b).
Proof.
  intros Ha Hlen. cbv zeta.
  destruct (sample_of (lat, success, now)) as [x|] eqn:Es.
  - apply sample_of_Some in Es as (l & -> & E & ->).
    rewrite (updateStats_success _ _ _ _ _ E). unfold Arr.isArray. rewrite Ha.
    cbn [fst snd]. split; [reflexivity|]. split.
    + eexists. split; [apply pushed_lookup; exact Ha | apply pushed_length_le; assumption].
    + intros b Hb. apply pushed_lookup_ne. congruence.
  - apply sample_of_None in Es. rewrite (updateStats_failure _ _ _ _ _ Es).
    cbn [fst snd]. split; [reflexivity|]. split; [eauto|reflexivity].
Qed.

Lemma settle_provider_store (h : heap) mode pr p xs :
  h !! Stats.history (Provider.stats p) = Some xs ->
  (length xs <= 100)%nat ->
  let r := settle_provider h mode pr p in
  Stats.history (Provider.stats r.2) = Stats.history (Provider.stats p) /\
  (exists xs', r.1 !! Stats.history (Provider.stats p) = Some xs' /\ (length xs' <= 100)%nat) /\
  (forall b, b <> Stats.history (Provider.stats p) -> r.1 !! b = h !! b).
Proof.
  intros Ha Hlen. unfold settle_provider.
  destruct (measure mode pr p) as [[[] l]|e];
    match goal with
    | |- context [updateStats h p ?lat ?b ?n] =>
        pose proof (updateStats_store h p lat b n xs Ha Hlen) as H;
        destruct (updateStats h p lat b n) as [h' p']
    end; exact H.
Qed.

Lemma own_history_insert (h h' : heap) ps i p p' :
  own_history h ps ->
  ps !! i = Some p ->
  Stats.history (Provider.stats p') = Stats.history (Provider.stats p) ->
  (exists xs', h' !! Stats.history (Provider.stats p) = Some xs' /\ (length xs' <= 100)%nat) ->
  (forall b, b <> Stats.history (Provider.stats p) -> h' !! b = h !! b) ->
  own_history h' (<[i := p']> ps).
Proof.
  intros [Hnd Hall] Hp Hh Hat Hother.
  assert (Hlocs : (fun p => Stats.history (Provider.stats p)) <$> <[i := p']> ps
                  = (fun p => Stats.history (Provider.stats p)) <$> ps).
  { rewrite list_fmap_insert, Hh. apply list_insert_id. rewrite list_lookup_fmap, Hp. reflexivity. }
  split; [rewrite Hlocs; assumption|].
  apply Forall_forall. intros q Hq.
  assert (Hq' : Stats.history (Provider.stats q) = Stats.history (Provider.stats p) \/
                (q ∈ ps /\ Stats.history (Provider.stats q) <> Stats.history (Provider.stats p))).
  { apply list_elem_of_lookup in Hq as [j Hj].
    destruct (decide (j = i)) as [->|Hne].
    - apply lookup_lt_Some in Hp. rewrite list_lookup_insert_eq in Hj by assumption.
      injection Hj as <-. left. assumption.
    - rewrite list_lookup_insert_ne in Hj by congruence.
      destruct (decide (Stats.history (Provider.stats q) = Stats.history (Provider.stats p)));
        [left; assumption | right]. split; [|assumption].
      apply list_elem_of_lookup. eauto. }
  destruct Hq' as [-> | [Hin Hne]]; [exact Hat|].
  rewrite Forall_forall in Hall. destruct (Hall q Hin) as (xs & Hxs & Hl).
  exists xs. rewrite Hother by assumption. auto.
Qed.

(** X8: in every state that the monitor reaches, each provider has a
    history array of its own, shared with no other provider, and it holds
    at most 100 samples. *)
Theorem reachable_own_history s :
  reachable s -> own_history (store s) (Monitor.providers (monitor s)).
Proof.
  induction 1 as [h registry | s cb _ IH | s i _ IH | s i pr _ IH | s _ IH | s _ IH].
  - unfold constructor. destruct registry as [registry|]; simpl.
    + rewrite instantiate_closed. simpl. apply own_history_fresh. reflexivity.
    + split; constructor.
  - unfold setUpdateCallback. destruct cb; exact IH.
  - destruct (Monitor.providers (monitor s) !! i) as [p|] eqn:Hp.
    + rewrite (dispatch_Some _ _ _ Hp). simpl.
      pose proof IH as [_ Hall]. rewrite Forall_forall in Hall.
      destruct (Hall p) as (xs & Hxs & Hl); [apply list_elem_of_lookup; eauto|].
      eapply own_history_insert; eauto.
    + unfold testProvider_dispatch. rewrite Hp. exact IH.
  - destruct (Monitor.providers (monitor s) !! i) as [p|] eqn:Hp.
    + rewrite (settle_Some _ _ _ _ Hp). simpl.
      pose proof IH as [_ Hall]. rewrite Forall_forall in Hall.
      destruct (Hall p) as (xs & Hxs & Hl); [apply list_elem_of_lookup; eauto|].
      destruct (settle_provider_store (store s) (Monitor.testMode (monitor s)) pr p xs Hxs Hl)
        as (H1 & H2 & H3).
      eapply own_history_insert; eauto.
    + unfold testProvider_settle. rewrite Hp. exact IH.
  - exact IH.
  - unfold clearStats_state, clearStats. rewrite clear_each_closed. simpl.
    apply own_history_fresh. reflexivity.
Qed.

Lemma reachable_three_providers : reachable three_providers.
Proof.
  exact (reach_setUpdateCallback _ true
           (reach_constructor [] (Some [Some openai; Some anthropic; Some google]))).
Qed.

Lemma reachable_after_first_probe : reachable after_first_probe.
Proof.
  apply reach_settle, reach_dispatch, reachable_three_providers.
Qed.

Lemma reachable_own_history_witness :
  own_history (store after_first_probe) (Monitor.providers (monitor after_first_probe)).
Proof.
  apply (reachable_own_history after_first_probe). exact reachable_after_first_probe.
Defined.

(** X9: a probe of one provider leaves every other provider as it is, and
    its history with it, in a state where each provider has its own
    history array. *)
Theorem testProvider_frame i pr s j q :
  own_history (store s) (Monitor.providers (monitor s)) ->
  i <> j ->
  Monitor.providers (monitor s) !! j = Some q ->
  Monitor.providers (monitor (testProvider i pr s)) !! j = Some q /\
  store (testProvider i pr s) !! Stats.history (Provider.stats q)
    = store s !! Stats.history (Provider.stats q) /\
  Monitor.totalTests (monitor (testProvider i pr s)) = Monitor.totalTests (monitor s).
Proof.
  intros [Hnd Hall] Hij Hq.
  destruct (Monitor.providers (monitor s) !! i) as [p|] eqn:Hp.
  - destruct (testProvider_at i pr s p Hp) as [Hs Hps].
    rewrite Hps, Hs, list_lookup_insert_ne by assumption.
    split; [assumption|]. split.
    + rewrite Forall_forall in Hall.
      destruct (Hall p) as (xs & Hxs & Hl); [apply list_elem_of_lookup; eauto|].
      destruct (settle_provider_store (store s) (Monitor.testMode (monitor s)) pr
                  (Provider.set_status testing p) xs Hxs Hl) as (_ & _ & H3).
      apply H3. simpl. intros Heq.
      apply Hij. apply (proj1 (NoDup_alt _) Hnd i j (Stats.history (Provider.stats p)));
        rewrite list_lookup_fmap; [rewrite Hp | rewrite Hq; simpl; rewrite Heq]; reflexivity.
    + unfold testProvider. rewrite (dispatch_Some _ _ _ Hp).
      apply lookup_lt_Some in Hp as Hlt.
      erewrite settle_Some; [|simpl; apply list_lookup_insert_eq; assumption].
      reflexivity.
  - unfold testProvider, testProvider_dispatch. rewrite Hp.
    unfold testProvider_settle. rewrite Hp. auto.
Qed.

Lemma testProvider_frame_witness :
  Monitor.providers (monitor (testProvider 0 probe_120 three_providers)) !! 1%nat
    = Some (Provider.mk anthropic (Stats.initial 1%nat) idle) /\
  store (testProvider 0 probe_120 three_providers) !! 1%nat = store three_providers !! 1%nat.
Proof.
  assert (Hown : own_history (store three_providers) (Monitor.providers (monitor three_providers))).
  { split.
    - apply (bool_decide_unpack _). vm_compute. reflexivity.
    - repeat (apply Forall_cons; split; [exists []; split; [reflexivity | simpl; lia]|]).
      apply Forall_nil_2. }
  destruct (testProvider_frame 0 probe_120 three_providers 1
              (Provider.mk anthropic (Stats.initial 1%nat) idle) Hown ltac:(lia) eq_refl)
    as (H1 & H2 & _).
  split; assumption.
Defined.

(** ** The statistics in the reachable states *)

Lemma settle_provider_sound h mode pr p :
  (exists ns nf : nat,
     Stats.successes (Provider.stats p) = JS.Fin (Z.of_nat ns) /\
     Stats.failures (Provider.stats p) = JS.Fin (Z.of_nat nf) /\
     Stats.count (Provider.stats p) = JS.Fin (Z.of_nat (ns + nf))) ->
  sound_stats (settle_provider h mode pr p).2.
Proof.
  intros (ns & nf & Hs & Hf & Hc). unfold settle_provider, sound_stats.
  destruct (measure mode pr p) as [[[] l]|e] eqn:Em.
  - apply measure_not_NaN in Em.
    assert (E : true && negb (JS.isNaN l) = true) by (rewrite Em; reflexivity).
    rewrite (updateStats_success _ _ _ _ _ E). unfold current_not_NaN.
    destruct (Arr.isArray _ _); cbn -[JS.add JS.or JS.min JS.max JS.round_div JS.gt];
      rewrite Hs, Hf, Hc, !or_zero_fin; cbn [JS.add];
      (split; [exists (S ns), nf; repeat split; f_equal; lia|]);
      (split; [destruct l; simpl in Em; congruence|]);
      (split; [eauto|]); split; discriminate.
  - rewrite (updateStats_failure h p JS.VNull false (now pr)) by reflexivity.
    unfold current_not_NaN. cbn -[JS.add JS.or]. rewrite Hf, Hc, !or_zero_fin. cbn [JS.add].
    split; [exists ns, (S nf); rewrite Hs; repeat split; f_equal; lia|].
    split; [discriminate|]. split; [discriminate|]. split; [reflexivity|discriminate].
  - rewrite (updateStats_failure h p JS.VNull false (now pr)) by reflexivity.
    unfold current_not_NaN. cbn -[JS.add JS.or]. rewrite Hf, Hc, !or_zero_fin. cbn [JS.add].
    split; [exists ns, (S nf); rewrite Hs; repeat split; f_equal; lia|].
    split; [discriminate|]. split; [discriminate|]. split; [reflexivity|discriminate].
Qed.

Lemma sound_initial c a st : st = idle -> sound_stats (Provider.mk c (Stats.initial a) st).
Proof.
  intros ->. unfold sound_stats, current_not_NaN. simpl.
  split; [exists 0%nat, 0%nat; repeat split|].
  split; [discriminate|]. split; [discriminate|]. split; [reflexivity|reflexivity].
Qed.

(** X10: in every state that the monitor reaches, the counters of every
    provider are natural numbers with [count = successes + failures],
    [current] is never [NaN], an online provider shows a latency, an
    offline one shows none, and an idle one has the initial statistics. *)
Theorem reachable_sound_stats s :
  reachable s -> Forall sound_stats (Monitor.providers (monitor s)).
Proof.
  induction 1 as [h registry | s cb _ IH | s i _ IH | s i pr _ IH | s _ IH | s _ IH].
  - unfold constructor. destruct registry as [registry|]; simpl; [|constructor].
    rewrite instantiate_closed. simpl. apply Forall_forall. intros p Hp.
    apply elem_of_lookup_imap in Hp as (i & c & -> & _). apply sound_initial. reflexivity.
  - unfold setUpdateCallback. destruct cb; exact IH.
  - destruct (Monitor.providers (monitor s) !! i) as [p|] eqn:Hp.
    + rewrite (dispatch_Some _ _ _ Hp). simpl. apply Forall_insert; [assumption|].
      rewrite Forall_forall in IH.
      destruct (IH p) as (Hcnt & Hnan & _); [apply list_elem_of_lookup; eauto|].
      unfold sound_stats. simpl. split; [assumption|]. split; [assumption|].
      repeat split; discriminate.
    + unfold testProvider_dispatch. rewrite Hp. exact IH.
  - destruct (Monitor.providers (monitor s) !! i) as [p|] eqn:Hp.
    + rewrite (settle_Some _ _ _ _ Hp). simpl. apply Forall_insert; [assumption|].
      rewrite Forall_forall in IH.
      destruct (IH p) as (Hcnt & _); [apply list_elem_of_lookup; eauto|].
      apply settle_provider_sound. assumption.
    + unfold testProvider_settle. rewrite Hp. exact IH.
  - exact IH.
  - unfold clearStats_state, clearStats. rewrite clear_each_closed. simpl.
    apply Forall_forall. intros p Hp.
    apply elem_of_lookup_imap in Hp as (i & c & -> & _). apply sound_initial. reflexivity.
Qed.

Lemma reachable_sound_stats_witness :
  Forall sound_stats (Monitor.providers (monitor after_first_probe)).
Proof.
  apply (reachable_sound_stats after_first_probe). exact reachable_after_first_probe.
Defined.

(** ** The notifications of a round *)

Lemma testing_first_snoc_testing evs i :
  testing_first evs -> testing_first (evs ++ [(ev_testing, i)]).
Proof.
  intros H k j Hk.
  destruct (decide (k < length evs)%nat) as [Hlt|Hge].
  - rewrite lookup_app_l in Hk by assumption.
    destruct (H k j Hk) as (m & Hm & Hev). exists m. split; [assumption|].
    rewrite lookup_app_l by lia. assumption.
  - rewrite lookup_app_r in Hk by lia.
    destruct (k - length evs)%nat; simpl in Hk; discriminate.
Qed.

Lemma testing_first_snoc_complete evs i :
  testing_first evs -> (ev_testing, i) ∈ evs -> testing_first (evs ++ [(ev_complete, i)]).
Proof.
  intros H Hin k j Hk.
  destruct (decide (k < length evs)%nat) as [Hlt|Hge].
  - rewrite lookup_app_l in Hk by assumption.
    destruct (H k j Hk) as (m & Hm & Hev). exists m. split; [assumption|].
    rewrite lookup_app_l by lia. assumption.
  - rewrite lookup_app_r in Hk by lia.
    destruct (k - length evs)%nat eqn:E; simpl in Hk; [|destruct n; discriminate].
    injection Hk as <-.
    apply list_elem_of_lookup in Hin as [m Hm]. exists m.
    apply lookup_lt_Some in Hm as Hlt. split; [lia|].
    rewrite lookup_app_l by assumption. assumption.
Qed.

Lemma round_events_step probes s0 r r' evs :
  round_inv probes s0 r ->
  round_step probes r r' ->
  notified (state r) = notified s0 ++ evs ->
  Monitor.onUpdate (monitor (state r)) = Monitor.onUpdate (monitor s0) ->
  round_events (Monitor.onUpdate (monitor s0)) r evs ->
  exists evs',
    notified (state r') = notified s0 ++ evs' /\
    Monitor.onUpdate (monitor (state r')) = Monitor.onUpdate (monitor s0) /\
    round_events (Monitor.onUpdate (monitor s0)) r' evs'.
Proof.
  intros (Hlen & _ & Hd & _ & Hlt & _ & _) Hstep Hlog Hcb Hev.
  destruct Hstep as [r Hdlt | r i Hin | r Hdn Hpn Hjf].
  - destruct (lookup_lt_is_Some_2 _ _ Hdlt) as [p Hp].
    simpl. rewrite (dispatch_Some _ _ _ Hp). simpl. rewrite Hcb, Hlog.
    unfold round_events in *. destruct (Monitor.onUpdate (monitor s0)).
    + exists (evs ++ [(ev_testing, dispatched r)]).
      rewrite (assoc_L (++)). split; [reflexivity|]. split; [reflexivity|].
      destruct Hev as (Hnd & Ht & Hc & Hord). simpl.
      split; [|split; [|split]].
      * apply NoDup_app. split; [assumption|]. split; [|apply NoDup_singleton].
        intros x Hx Hx'. apply list_elem_of_singleton in Hx'. subst x.
        apply Ht in Hx. lia.
      * intros i. rewrite elem_of_app, list_elem_of_singleton, Ht.
        split; [intros [H|[= ->]]; lia | intros H].
        destruct (decide (i = dispatched r)) as [->|]; [right; reflexivity | left; lia].
      * intros i. rewrite elem_of_app, list_elem_of_singleton, Hc.
        split.
        -- intros [[H1 H2]|H]; [|discriminate]. split; [lia|].
           rewrite elem_of_app, list_elem_of_singleton. intros [H|H]; [contradiction|lia].
        -- intros [H1 H2]. left.
           rewrite elem_of_app, list_elem_of_singleton in H2.
           split; [|intros H; apply H2; left; assumption].
           destruct (decide (i = dispatched r)); [exfalso; apply H2; right; assumption | lia].
      * apply testing_first_snoc_testing. assumption.
    + exists evs. split; [reflexivity|]. split; [reflexivity|]. assumption.
  - assert (Hi : (i < dispatched r)%nat).
    { rewrite Forall_forall in Hlt. apply Hlt. assumption. }
    assert (Hil : (i < length (Monitor.providers (monitor (state r))))%nat) by lia.
    destruct (lookup_lt_is_Some_2 _ _ Hil) as [p Hp].
    simpl. rewrite (settle_Some _ _ _ _ Hp). simpl. rewrite Hcb, Hlog.
    unfold round_events in *. destruct (Monitor.onUpdate (monitor s0)).
    + exists (evs ++ [(ev_complete, i)]).
      rewrite (assoc_L (++)). split; [reflexivity|]. split; [reflexivity|].
      destruct Hev as (Hnd & Ht & Hc & Hord). simpl.
      split; [|split; [|split]].
      * apply NoDup_app. split; [assumption|]. split; [|apply NoDup_singleton].
        intros x Hx Hx'. apply list_elem_of_singleton in Hx'. subst x.
        apply Hc in Hx as [_ Hx]. contradiction.
      * intros j. rewrite elem_of_app, list_elem_of_singleton, Ht.
        split; [intros [H|H]; [assumption|discriminate] | intros H; left; assumption].
      * intros j. rewrite elem_of_app, list_elem_of_singleton, Hc, list_elem_of_filter.
        split.
        -- intros [[H1 H2]|[= ->]].
           ++ split; [assumption|]. intros [_ H]. contradiction.
           ++ split; [assumption|]. intros [H _]. apply H. reflexivity.
        -- intros [H1 H2].
           destruct (decide (j = i)) as [->|Hne]; [right; reflexivity|].
           left. split; [assumption|]. intros H. apply H2. split; assumption.
      * apply testing_first_snoc_complete; [assumption|]. apply Ht. assumption.
    + exists evs. split; [reflexivity|]. split; [reflexivity|]. assumption.
  - exists evs. simpl. split; [assumption|]. split; [assumption|].
    unfold round_events in *. destruct (Monitor.onUpdate (monitor s0)); assumption.
Qed.

(** X11: in a round, the update callback is handed one [testing] event for
    every dispatched probe and one [complete] event for every settled
    probe and nothing else, no event twice, and the [complete] event of a
    provider after its [testing] event; with no callback registered,
    nothing is handed out. *)
Theorem round_notifications probes s r :
  round_steps probes (round_start s) r ->
  exists evs,
    notified (state r) = notified s ++ evs /\
    round_events (Monitor.onUpdate (monitor s)) r evs.
Proof.
  intros Hr.
  assert (H : exists evs,
            notified (state r) = notified s ++ evs /\
            Monitor.onUpdate (monitor (state r)) = Monitor.onUpdate (monitor s) /\
            round_events (Monitor.onUpdate (monitor s)) r evs).
  { remember (round_start s) as r0 eqn:E.
    induction Hr as [r|r1 r2 r3 Hsteps IH Hstep]; subst.
    - exists []. simpl. rewrite app_nil_r. split; [reflexivity|]. split; [reflexivity|].
      unfold round_events. destruct (Monitor.onUpdate (monitor s)); [|reflexivity].
      simpl. split; [constructor|]. split; [|split].
      + intros i. split; [intros H; inversion H | lia].
      + intros i. split; [intros H; inversion H | lia].
      + intros k i Hk. destruct k; discriminate.
    - destruct (IH eq_refl) as (evs & Hlog & Hcb & Hev).
      apply (round_events_step probes s r2 r3 evs); try assumption.
      apply round_inv_steps. assumption. }
  destruct H as (evs & Hlog & _ & Hev). eauto.
Qed.

Lemma round_notifications_witness :
  exists evs,
    notified (runTests timeout_round three_providers) = notified three_providers ++ evs /\
    round_events true (mkRound (runTests timeout_round three_providers) 3 [] true) evs.
Proof.
  apply (round_notifications timeout_round three_providers
           (mkRound (runTests timeout_round three_providers) 3 [] true)).
  exact (runTests_round timeout_round three_providers).
Defined.

(** ** The registry check *)

Lemma validate_entry_nil index entry :
  validate_entry index entry = [] <-> valid_entry entry = true.
Proof.
  destruct entry as [[i n e pp col ra]|]; [|split; discriminate].
  unfold validate_entry, valid_entry, well_configured, requiredFields.
  cbn -[truthy_str String.prefix color_format].
  destruct e as [e|], col as [col|];
    destruct (truthy_str i), (truthy_str n), (truthy_str pp);
    try destruct (truthy_str (Some e)) eqn:Ee;
    try destruct (truthy_str (Some col)) eqn:Ec;
    try (simpl in Ee; discriminate); try (simpl in Ec; discriminate);
    try destruct (String.prefix "http" e); try destruct (color_format col);
    cbn; split; intros H; try reflexivity; try discriminate.
Qed.

Lemma validate_all_nil registry : forall k,
  concat (imap (fun i => validate_entry (k + i)) registry) = [] <->
  forallb valid_entry registry = true.
Proof.
  induction registry as [|e registry IH]; intros k; [split; reflexivity|].
  cbn [imap concat forallb].
  assert (Hext : imap ((fun i => validate_entry (k + i)) ∘ S) registry
                 = imap (fun i => validate_entry (S k + i)) registry).
  { apply imap_ext. intros i x _. simpl. f_equal. lia. }
  rewrite Hext, andb_true_iff, <- (IH (S k)), <- (validate_entry_nil (k + 0) e).
  split.
  - intros H. apply app_eq_nil in H. exact H.
  - intros [-> ->]. reflexivity.
Qed.

Lemma silent_registry_valid (registry : list (option Config.t)) :
  validateProviders registry = [] -> forallb valid_entry registry = true.
Proof.
  unfold validateProviders. intros H. apply (validate_all_nil registry 0).
  erewrite imap_ext; [exact H|]. intros i x _. reflexivity.
Qed.

(** X12: [validateProviders] reports nothing exactly when every entry of
    the registry is a record with all five required fields non-empty, an
    endpoint that starts with [http] and a colour of the form [#] and six
    hexadecimal digits. *)
Theorem validateProviders_silent_iff_valid (registry : list (option Config.t)) :
  validateProviders registry = [] <-> forallb valid_entry registry = true.
Proof.
  split; [apply silent_registry_valid|].
  unfold validateProviders. intros H. apply (validate_all_nil registry 0) in H.
  erewrite imap_ext; [exact H|]. intros i x _. reflexivity.
Qed.

Lemma valid_registry_records registry :
  forallb valid_entry registry = true ->
  length (omap id registry) = length registry /\
  Forall (fun c => well_configured c = true) (omap id registry).
Proof.
  intros H.
  induction registry as [|[c|] registry IH]; [split; [reflexivity|constructor] | |discriminate].
  simpl in H. apply andb_true_iff in H as [Hc Hr].
  destruct (IH Hr) as [IH1 IH2]. rewrite omap_cons. simpl. split; [f_equal; assumption|].
  constructor; [|assumption].
  apply andb_true_iff in Hc as [Hc _]. apply andb_true_iff in Hc as [Hc _]. assumption.
Qed.

Lemma well_configured_guard c :
  well_configured c = true ->
  truthy_str (Config.endpoint c) = true /\ truthy_str (Config.pingPath c) = true.
Proof.
  unfold well_configured, requiredFields. cbn -[truthy_str].
  rewrite !andb_true_iff. intros (_ & _ & He & Hp & _). auto.
Qed.

(** X13: a registry about which [validateProviders] reports nothing is
    instantiated whole by the constructor, one provider per entry, and
    none of these providers is turned away by the configuration guard of
    [pingTest]: with [AbortController] its ping fails exactly on an
    abort. *)
Theorem valid_registry_constructed (h : heap) (registry : list (option Config.t)) :
  validateProviders registry = [] ->
  let m := (constructor h (Some registry)).2 in
  length (Monitor.providers m) = length registry /\
  Forall (fun p => forall fetch, pingTest true fetch p = Return (negb (aborted fetch)))
    (Monitor.providers m).
Proof.
  intros Hv. apply silent_registry_valid in Hv.
  destruct (valid_registry_records registry Hv) as (Hlen & Hwc).
  unfold constructor. rewrite instantiate_closed. simpl.
  split; [rewrite length_imap; assumption|].
  apply Forall_forall. intros p Hp.
  apply elem_of_lookup_imap in Hp as (i & c & -> & Hc).
  rewrite Forall_forall in Hwc.
  destruct (well_configured_guard c) as [He Hpp].
  { apply Hwc. apply list_elem_of_lookup. eauto. }
  intros fetch. apply pingTest_with_controller; assumption.
Qed.

Lemma valid_registry_constructed_witness :
  length (Monitor.providers (constructor [] (Some API_PROVIDERS)).2) = length API_PROVIDERS /\
  Forall (fun p => forall fetch, pingTest true fetch p = Return (negb (aborted fetch)))
    (Monitor.providers (constructor [] (Some API_PROVIDERS)).2).
Proof.
  apply (valid_registry_constructed [] API_PROVIDERS). reflexivity.
Defined.

(** ** The scheduler *)

Example parseInt_examples :
  parseInt "5000" = JS.Fin 5000 /\ parseInt " 42px" = JS.Fin 42 /\
  parseInt "-5" = JS.Fin (-5) /\ parseInt "+7" = JS.Fin 7 /\ parseInt "0" = JS.Fin 0 /\
  parseInt "" = JS.NaN /\ parseInt "manual" = JS.NaN /\ parseInt "1e3" = JS.Fin 1 /\
  parseInt "12.5" = JS.Fin 12.
Proof. vm_compute. repeat split. Qed.

(** From [2^53] on the integer read is rounded to a double, and a numeral
    of 309 digits or more gives an infinity. *)
Example parseInt_rounds :
  parseInt "9007199254740992" = JS.Fin 9007199254740992 /\
  parseInt "9007199254740993" = JS.Fin 9007199254740992 /\
  parseInt "9007199254740995" = JS.Fin 9007199254740996 /\
  parseInt "-9007199254740995" = JS.Fin (-9007199254740996) /\
  parseInt "123456789012345678901234567890" = JS.Fin 123456789012345677877719597056 /\
  number_of (2 ^ 1024 - 2 ^ 970 - 1) = JS.Fin (2 ^ 1024 - 2 ^ 971) /\
  number_of (2 ^ 1024 - 2 ^ 970) = JS.PInf /\
  number_of (- 10 ^ 400) = JS.NInf /\
  parseInt (decimal (10 ^ 308)) = JS.Fin (2 ^ 971 * 5010420900022432) /\
  parseInt (decimal (10 ^ 309)) = JS.PInf.
Proof. vm_compute. repeat split. Qed.

(** The guard [isNaN(n) || n <= 0] lets exactly the positive numbers
    through. *)
Lemma guard_positive (n : JS.num) :
  JS.isNaN n || js_le n (JS.Fin 0) = false <-> JS.lt (JS.Fin 0) n = true.
Proof.
  destruct n as [z| | |]; unfold js_le; simpl;
    try (destruct (0 <? z)); simpl; split; congruence.
Qed.

Lemma dispatch_flags i s : flags (testProvider_dispatch i s) = flags s.
Proof.
  unfold testProvider_dispatch, notifyUpdate, set_provider.
  destruct (Monitor.providers (monitor s) !! i); [|reflexivity]. simpl.
  destruct (Monitor.onUpdate (monitor s)); reflexivity.
Qed.

Lemma settle_flags i pr s : flags (testProvider_settle i pr s) = flags s.
Proof.
  unfold testProvider_settle, notifyUpdate, set_provider.
  destruct (Monitor.providers (monitor s) !! i); [|reflexivity].
  destruct (settle_provider _ _ _ _). simpl.
  destruct (Monitor.onUpdate (monitor s)); reflexivity.
Qed.

Lemma clearStats_flags s : flags (clearStats_state s) = flags s.
Proof.
  unfold clearStats_state, clearStats. destruct (clear_each _ _). reflexivity.
Qed.

Lemma runTests_call_flags perf s : flags (runTests_call perf s) = flags s.
Proof.
  unfold runTests_call. generalize (seq 0 (length (Monitor.providers (monitor s)))) as l.
  intros l. revert s. induction l as [|i l IH]; intros s; [reflexivity|].
  simpl. rewrite IH. destruct perf.
  - apply dispatch_flags.
  - unfold testProvider. rewrite settle_flags. apply dispatch_flags.
Qed.

Lemma flags_inv s s' :
  flags s' = flags s ->
  Monitor.isMonitoring (monitor s') = Monitor.isMonitoring (monitor s) /\
  Monitor.monitoringInterval (monitor s') = Monitor.monitoringInterval (monitor s) /\
  Monitor.testMode (monitor s') = Monitor.testMode (monitor s).
Proof. unfold flags. intros [= -> -> ->]. auto. Qed.

Lemma one_timer_flags w s' :
  one_timer w -> flags s' = flags (world_state w) ->
  one_timer (mkWorld s' (performance_api w) (timers w) (launched w)).
Proof.
  intros H Hf. apply flags_inv in Hf as (H1 & H2 & _).
  unfold one_timer in *. simpl. rewrite H1, H2. exact H.
Qed.

Lemma one_timer_launch w : one_timer w -> one_timer (launch w).
Proof.
  intros H. unfold launch.
  pose proof (runTests_call_flags (performance_api w) (world_state w)) as Hf.
  apply flags_inv in Hf as (H1 & H2 & _).
  unfold one_timer in *. simpl. rewrite H1, H2. exact H.
Qed.

Lemma one_timer_start intervalMs testMode w : one_timer w -> one_timer (start intervalMs testMode w).
Proof.
  intros H. unfold start.
  destruct (Monitor.isMonitoring (monitor (world_state w))) eqn:Hm; [exact H|].
  assert (Hnone : Monitor.monitoringInterval (monitor (world_state w)) = None /\
                  armed (timers w) = [] /\ (0 < next_handle (timers w))%nat).
  { destruct H as [Hn H].
    destruct (Monitor.monitoringInterval (monitor (world_state w))) as [handle|].
    - destruct H as (_ & H & _). congruence.
    - auto. }
  destruct Hnone as (Hi & Ha & Hn).
  set (w0 := mkWorld _ (performance_api w) (timers w) (launched w)).
  assert (H0 : one_timer (launch w0)).
  { apply one_timer_launch. unfold one_timer, w0. simpl. rewrite Hi. auto. }
  assert (Hf : flags (world_state (launch w0)) = (true, None, default "ping" testMode)).
  { unfold launch. simpl. rewrite runTests_call_flags. unfold flags, w0. simpl.
    rewrite Hi. reflexivity. }
  destruct (negb (String.eqb intervalMs "manual")); [|exact H0].
  destruct (JS.isNaN (parseInt intervalMs) || js_le (parseInt intervalMs) (JS.Fin 0)) eqn:Hp;
    [exact H0|].
  apply guard_positive in Hp.
  unfold flags in Hf. injection Hf as Hf1 Hf2 Hf3.
  unfold one_timer. simpl. rewrite Ha. simpl.
  split; [lia|]. split; [lia|]. split; [assumption|]. eauto.
Qed.

Lemma one_timer_stop w : one_timer w -> one_timer (stop w).
Proof.
  intros [Hn H]. unfold stop. simpl.
  destruct (Monitor.monitoringInterval (monitor (world_state w))) as [handle|] eqn:Hi.
  - destruct H as (Hh & _ & period & _ & Ha).
    destruct (Nat.eqb_spec handle 0) as [->|_]; [lia|]. simpl.
    unfold one_timer. simpl. split; [assumption|].
    rewrite Ha, filter_cons, decide_False; [reflexivity|]. simpl. intros Hne. apply Hne. reflexivity.
  - unfold one_timer. simpl. rewrite Hi. auto.
Qed.

Lemma loaded_one_timer performance_api registry next_handle :
  one_timer (loaded performance_api registry next_handle).
Proof.
  unfold one_timer, loaded, constructor. simpl.
  destruct (match registry with Some r => instantiate [] r | None => ([], []) end).
  simpl. split; [lia|reflexivity].
Qed.

(** X14: whatever happens to the monitor after loading (starts, stops,
    timer ticks, settling probes, joins, clears), at most one interval
    timer is armed: none when the monitor holds no handle, and otherwise
    exactly the one whose handle it holds, with a positive period and
    only while [isMonitoring] is set. *)
Theorem scheduler_one_timer performance_api registry next_handle (actions : list Action) :
  one_timer (foldl act (loaded performance_api registry next_handle) actions).
Proof.
  induction actions as [|a actions IH] using rev_ind.
  - apply loaded_one_timer.
  - rewrite foldl_app. simpl.
    set (w := foldl act _ actions) in *.
    destruct a as [intervalMs testMode | | handle | i pr | | ]; simpl.
    + apply one_timer_start. assumption.
    + apply one_timer_stop. assumption.
    + unfold tick. destruct (existsb _ _); [apply one_timer_launch|]; assumption.
    + apply one_timer_flags; [assumption | apply settle_flags].
    + apply one_timer_flags; [assumption | reflexivity].
    + apply one_timer_flags; [assumption | apply clearStats_flags].
Qed.

Lemma start_monitoring intervalMs testMode w :
  Monitor.isMonitoring (monitor (world_state (start intervalMs testMode w))) = true.
Proof.
  unfold start.
  destruct (Monitor.isMonitoring (monitor (world_state w))) eqn:Hm; [assumption|].
  set (w0 := mkWorld _ (performance_api w) (timers w) (launched w)).
  assert (Hf : Monitor.isMonitoring (monitor (world_state (launch w0))) = true).
  { unfold launch. cbn [world_state].
    destruct (flags_inv _ _ (runTests_call_flags (performance_api w0) (world_state w0)))
      as (H1 & _).
    rewrite H1. reflexivity. }
  destruct (negb (String.eqb intervalMs "manual")); [|exact Hf].
  destruct (JS.isNaN _ || js_le _ _); [exact Hf|].
  cbn [world_state set_monitor monitor set_monitoringInterval Monitor.isMonitoring].
  exact Hf.
Qed.

(** X15: a second [start] without a [stop] in between does nothing: no
    second round is launched, no second timer is armed, the test mode and
    the interval of the first call stay. *)
Theorem start_twice a b c d w : start a b (start c d w) = start c d w.
Proof.
  unfold start at 1. rewrite start_monitoring. reflexivity.
Qed.

(** X16: [start] on a stopped monitor launches one round at once, sets
    [isMonitoring] and the test mode (ping when none is given), and arms
    one timer with the parsed period when the interval is not [manual]
    and parses to a positive integer; for [manual] and for an interval
    such as [0], [-5] or [abc] no timer is armed, and the monitor is left
    monitoring without one. *)
Theorem start_when_stopped intervalMs testMode w :
  one_timer w ->
  Monitor.isMonitoring (monitor (world_state w)) = false ->
  let w' := start intervalMs testMode w in
  launched w' = S (launched w) /\
  Monitor.isMonitoring (monitor (world_state w')) = true /\
  Monitor.testMode (monitor (world_state w')) = default "ping" testMode /\
  match period intervalMs with
  | Some interval =>
      Monitor.monitoringInterval (monitor (world_state w')) = Some (next_handle (timers w)) /\
      armed (timers w') = [(next_handle (timers w), interval)]
  | None =>
      Monitor.monitoringInterval (monitor (world_state w')) = None /\
      armed (timers w') = []
  end.
Proof.
  intros [Hn H] Hm.
  assert (Hnone : Monitor.monitoringInterval (monitor (world_state w)) = None /\
                  armed (timers w) = []).
  { destruct (Monitor.monitoringInterval (monitor (world_state w))) as [handle|].
    - destruct H as (_ & H & _). congruence.
    - auto. }
  destruct Hnone as [Hi Ha].
  cbv zeta. unfold start, period. rewrite Hm.
  set (w0 := mkWorld _ (performance_api w) (timers w) (launched w)).
  assert (Hf : flags (world_state (launch w0)) = (true, None, default "ping" testMode)).
  { unfold launch. simpl. rewrite runTests_call_flags. unfold flags, w0. simpl.
    rewrite Hi. reflexivity. }
  unfold flags in Hf. injection Hf as Hf1 Hf2 Hf3.
  destruct (String.eqb intervalMs "manual"); cbn [negb].
  - simpl. auto.
  - destruct (parseInt intervalMs) as [z| | |];
      unfold js_le; cbn [JS.isNaN JS.lt negb andb orb];
      try (destruct (Z.ltb_spec 0 z)); cbn [negb]; simpl; rewrite ?Ha; auto.
Qed.

Lemma start_when_stopped_witness :
  launched started_world = 1%nat /\
  Monitor.isMonitoring (monitor (world_state started_world)) = true /\
  Monitor.monitoringInterval (monitor (world_state started_world)) = Some 1%nat /\
  armed (timers started_world) = [(1%nat, JS.Fin 5000)].
Proof.
  pose proof (start_when_stopped "5000" (Some "ping")
                (loaded true (Some [Some openai; Some anthropic; Some google]) 0)
                (loaded_one_timer true _ 0) eq_refl) as H.
  cbv zeta in H. change (period "5000") with (Some (JS.Fin 5000)) in H.
  destruct H as (H1 & H2 & _ & H3 & H4). auto.
Defined.

(** X17: [stop] clears the running flag and the timer: afterwards no timer
    is armed and the monitor holds no handle, so that no tick launches a
    round; the providers, their statistics and the rounds already launched
    are as before. *)
Theorem stop_quiesces w :
  one_timer w ->
  let w' := stop w in
  Monitor.isMonitoring (monitor (world_state w')) = false /\
  Monitor.monitoringInterval (monitor (world_state w')) = None /\
  armed (timers w') = [] /\
  launched w' = launched w /\
  Monitor.providers (monitor (world_state w')) = Monitor.providers (monitor (world_state w)) /\
  store (world_state w') = store (world_state w) /\
  forall handle, tick handle w' = w'.
Proof.
  intros Hw.
  pose proof (one_timer_stop w Hw) as [_ Hs].
  destruct Hw as [Hn H]. cbv zeta. unfold stop in *. simpl in *.
  destruct (Monitor.monitoringInterval (monitor (world_state w))) as [handle|] eqn:Hi.
  - destruct H as (Hh & _ & p & _ & Ha).
    destruct (Nat.eqb_spec handle 0) as [->|_]; [lia|]. simpl in *.
    repeat split; try assumption. intros h. unfold tick. simpl. rewrite Hs. reflexivity.
  - simpl in *. rewrite Hi in *. repeat split; try assumption.
    intros h. unfold tick. simpl. rewrite H. reflexivity.
Qed.

Lemma stop_quiesces_witness :
  Monitor.isMonitoring (monitor (world_state (stop started_world))) = false /\
  armed (timers (stop started_world)) = [] /\
  tick 1 (stop started_world) = stop started_world.
Proof.
  destruct (stop_quiesces started_world) as (H1 & _ & H3 & _ & _ & _ & H7).
  - apply one_timer_start. apply loaded_one_timer.
  - auto.
Defined.

(** ** The chart *)

(** *** Numerals *)

Lemma digit_char_digit d : 0 <= d < 10 -> digit (digit_char d) = Some d.
Proof.
  intros H.
  assert (Hd : d = 0 \/ d = 1 \/ d = 2 \/ d = 3 \/ d = 4 \/ d = 5 \/ d = 6 \/ d = 7 \/
               d = 8 \/ d = 9) by lia.
  repeat (destruct Hd as [-> | Hd]; [reflexivity|]). subst d. reflexivity.
Qed.

(** A digit is neither white space nor a sign, and no numeral is [all]. *)
Lemma digit_char_plain d rest :
  0 <= d < 10 ->
  is_space (digit_char d) = false /\
  (Ascii.nat_of_ascii (digit_char d) =? 45)%nat = false /\
  (Ascii.nat_of_ascii (digit_char d) =? 43)%nat = false /\
  String.eqb (String (digit_char d) rest) "all" = false.
Proof.
  intros H.
  assert (Hd : d = 0 \/ d = 1 \/ d = 2 \/ d = 3 \/ d = 4 \/ d = 5 \/ d = 6 \/ d = 7 \/
               d = 8 \/ d = 9) by lia.
  repeat (destruct Hd as [-> | Hd]; [repeat split|]). subst d. repeat split.
Qed.

Lemma numeral_S fuel n rest :
  numeral (S fuel) n rest =
    if n <? 10 then String (digit_char (n mod 10)) rest
    else numeral fuel (n / 10) (String (digit_char (n mod 10)) rest).
Proof. reflexivity. Qed.

Lemma numeral_head fuel : forall n rest,
  exists d rest', 0 <= d < 10 /\ numeral (S fuel) n rest = String (digit_char d) rest'.
Proof.
  induction fuel as [|fuel IH]; intros n rest; rewrite numeral_S.
  - exists (n mod 10), rest. split; [apply Z.mod_pos_bound; lia|].
    destruct (n <? 10); reflexivity.
  - destruct (n <? 10); [|apply IH].
    exists (n mod 10), rest. split; [apply Z.mod_pos_bound; lia|reflexivity].
Qed.

Lemma digits_cons c rest acc d :
  digit c = Some d -> digits (String c rest) acc = digits rest (Some (10 * default 0 acc + d)).
Proof. intros H. simpl. rewrite H. reflexivity. Qed.

(** Reading a numeral gives its number back. *)
Lemma digits_numeral fuel : forall n rest acc,
  0 <= n < 10 ^ Z.of_nat (S fuel) ->
  exists k, 0 <= k /\
    digits (numeral (S fuel) n rest) acc = digits rest (Some (10 ^ k * default 0 acc + n)).
Proof.
  induction fuel as [|fuel IH]; intros n rest acc Hn; rewrite numeral_S.
  - change (10 ^ Z.of_nat 1) with 10 in Hn.
    replace (if n <? 10 then String (digit_char (n mod 10)) rest
             else numeral 0 (n / 10) (String (digit_char (n mod 10)) rest))
      with (String (digit_char (n mod 10)) rest) by (destruct (n <? 10); reflexivity).
    exists 1. split; [lia|].
    rewrite (digits_cons _ _ _ (n mod 10)) by (apply digit_char_digit, Z.mod_pos_bound; lia).
    rewrite Z.mod_small by lia. reflexivity.
  - destruct (Z.ltb_spec n 10) as [Hlt|Hge].
    + exists 1. split; [lia|].
      rewrite (digits_cons _ _ _ (n mod 10)) by (apply digit_char_digit, Z.mod_pos_bound; lia).
      rewrite Z.mod_small by lia. reflexivity.
    + assert (Hdiv : 0 <= n / 10 < 10 ^ Z.of_nat (S fuel)).
      { split; [apply Z.div_pos; lia|].
        apply Z.div_lt_upper_bound; [lia|].
        replace (Z.of_nat (S (S fuel))) with (Z.succ (Z.of_nat (S fuel))) in Hn by lia.
        rewrite Z.pow_succ_r in Hn by lia. lia. }
      destruct (IH (n / 10) (String (digit_char (n mod 10)) rest) acc Hdiv) as (k & Hk & ->).
      exists (Z.succ k). split; [lia|].
      rewrite (digits_cons _ _ _ (n mod 10)) by (apply digit_char_digit, Z.mod_pos_bound; lia).
      cbn [default]. unfold id. rewrite Z.pow_succ_r, <- Z.mul_assoc by lia.
      do 2 f_equal. generalize (10 ^ k * default 0 acc). intros x.
      pose proof (Z.div_mod n 10 ltac:(lia)). lia.
Qed.

Lemma numeral_fuel n : 0 <= n -> n < 10 ^ Z.of_nat (S (Z.to_nat (Z.log2 n))).
Proof.
  intros Hn. destruct (Z.eq_dec n 0) as [->|Hne]; [reflexivity|].
  destruct (Z.log2_spec n ltac:(lia)) as [_ Hlt].
  pose proof (Z.log2_nonneg n) as Hl.
  replace (Z.of_nat (S (Z.to_nat (Z.log2 n)))) with (Z.succ (Z.log2 n)) by lia.
  eapply Z.lt_le_trans; [exact Hlt|].
  apply Z.pow_le_mono_l. lia.
Qed.

Lemma digits_numeral_all n :
  0 <= n -> digits (numeral (S (Z.to_nat (Z.log2 n))) n "") None = Some n.
Proof.
  intros Hn.
  destruct (digits_numeral _ n "" None (conj Hn (numeral_fuel n Hn))) as (k & _ & ->).
  simpl. f_equal. lia.
Qed.

(** [parseInt(String(n), 10)] is the Number value of [n]. *)
Lemma parseInt_decimal n : parseInt (decimal n) = number_of n.
Proof.
  unfold decimal. destruct (Z.ltb_spec n 0) as [Hneg|Hpos].
  - pose proof (digits_numeral_all (- n) ltac:(lia)) as Hd.
    unfold parseInt. cbn [trim_start].
    change (is_space (Ascii.ascii_of_nat 45)) with false. cbv iota.
    change (Ascii.nat_of_ascii (Ascii.ascii_of_nat 45) =? 45)%nat with true. cbv iota.
    rewrite Hd. f_equal. lia.
  - pose proof (digits_numeral_all n Hpos) as Hd.
    destruct (numeral_head (Z.to_nat (Z.log2 n)) n "") as (d & rest & Hr & E).
    rewrite E in Hd |- *.
    destruct (digit_char_plain d rest Hr) as (Hs & Hm & Hp & _).
    unfold parseInt. cbn [trim_start]. rewrite Hs, Hm, Hp, Hd. f_equal.
    destruct n; reflexivity.
Qed.

Lemma decimal_not_all n : String.eqb (decimal n) "all" = false.
Proof.
  unfold decimal. destruct (n <? 0); [reflexivity|].
  destruct (numeral_head (Z.to_nat (Z.log2 n)) n "") as (d & rest & Hr & ->).
  apply (digit_char_plain d rest Hr).
Qed.

Lemma number_of_small n : Z.abs n < 2 ^ 53 -> number_of n = JS.Fin n.
Proof.
  intros H. unfold number_of. destruct (Z.ltb_spec (Z.abs n) (2 ^ 53)); [reflexivity|lia].
Qed.

(** The Number value of an integer that is not positive is not positive,
    whatever its size. *)
Lemma number_of_nonpos n : n <= 0 -> js_le (number_of n) (JS.Fin 0) = true.
Proof.
  intros Hn. unfold number_of.
  destruct (Z.ltb_spec (Z.abs n) (2 ^ 53)) as [_|Hbig].
  - unfold js_le. simpl. destruct (Z.ltb_spec 0 n); [lia|reflexivity].
  - cbv zeta.
    set (e := Z.log2 (Z.abs n) - 52).
    set (q := if _ : bool then Z.abs n / 2 ^ e + 1 else Z.abs n / 2 ^ e).
    assert (Hq : 0 <= q).
    { assert (0 <= Z.abs n / 2 ^ e)
        by (apply Z_div_nonneg_nonneg; [lia|apply Z.pow_nonneg; lia]).
      subst q. destruct (_ : bool); lia. }
    assert (Hm : 0 <= q * 2 ^ e) by (apply Z.mul_nonneg_nonneg; [assumption|apply Z.pow_nonneg; lia]).
    destruct (2 ^ 1024 <=? q * 2 ^ e).
    + destruct (Z.ltb_spec n 0); [reflexivity|].
      exfalso. assert (0 < 2 ^ 53) by reflexivity. lia.
    + unfold js_le. simpl. destruct (Z.ltb_spec 0 (Z.sgn n * (q * 2 ^ e))); [|reflexivity].
      exfalso. pose proof (Z.sgn_nonpos n). nia.
Qed.

(** X18: whatever string [setDataRange] is given, the data range it
    leaves is [Infinity] or a positive number, never [NaN], 0 or negative.
    It is [Infinity] for [all]; for the decimal numeral of a positive
    integer below [2^53] it is that integer; for the numeral of 0 or of a
    negative integer it is the default, 20. *)
Theorem setDataRange_valid :
  (forall range, valid_range (setDataRange range)) /\
  setDataRange "all" = JS.PInf /\
  (forall n, 0 < n < 2 ^ 53 -> setDataRange (decimal n) = JS.Fin n) /\
  (forall n, n <= 0 -> setDataRange (decimal n) = JS.Fin 20).
Proof.
  split; [|split; [reflexivity|split]].
  - intros range. unfold setDataRange, valid_range.
    destruct (String.eqb range "all"); [left; reflexivity|].
    destruct (parseInt range) as [z| | |]; unfold js_le; simpl.
    + destruct (Z.ltb_spec 0 z); simpl; right; eauto with lia.
    + left; reflexivity.
    + right. exists 20. split; [reflexivity|lia].
    + right. exists 20. split; [reflexivity|lia].
  - intros n Hn. unfold setDataRange.
    rewrite decimal_not_all, parseInt_decimal, number_of_small by lia.
    unfold js_le. simpl. destruct (Z.ltb_spec 0 n); [reflexivity|lia].
  - intros n Hn. unfold setDataRange.
    rewrite decimal_not_all, parseInt_decimal, (number_of_nonpos n Hn).
    rewrite orb_true_r. reflexivity.
Qed.

Lemma maxDataPoints_bounds (h : heap) (ps : list Provider.t) (n : nat) :
  (1 <= n)%nat ->
  Forall (fun p => (Arr.length h (Stats.history (Provider.stats p)) <= n)%nat) ps ->
  (1 <= maxDataPoints h ps <= n)%nat.
Proof.
  intros Hn Hall. unfold maxDataPoints.
  induction Hall as [|p ps Hp _ IH]; simpl; [lia|].
  destruct (Arr.isArray h (Stats.history (Provider.stats p))); simpl; lia.
Qed.

Lemma own_history_lengths (h : heap) (ps : list Provider.t) :
  own_history h ps ->
  Forall (fun p => (Arr.length h (Stats.history (Provider.stats p)) <= 100)%nat) ps.
Proof.
  intros [_ Hall]. eapply Forall_impl; [exact Hall|]. simpl.
  intros p (xs & Hxs & Hl). unfold Arr.length, Arr.elems. rewrite Hxs. exact Hl.
Qed.

(** X19: with a data range that [setDataRange] can leave, in a state
    where the histories are the providers' own, the number of displayed
    points is an integer between 1 and 100, and not above the data
    range: it is never 0, so [draw] never takes its second empty-state
    exit. *)
Theorem displayPoints_bounds (h : heap) (ps : list Provider.t) (dataRange : JS.num) :
  valid_range dataRange ->
  own_history h ps ->
  exists k, displayPoints h ps dataRange = JS.Fin k /\
            1 <= k <= 100 /\
            k <= Z.of_nat (maxDataPoints h ps) /\
            JS.lt dataRange (JS.Fin k) = false.
Proof.
  intros Hr Hown.
  pose proof (maxDataPoints_bounds h ps 100 ltac:(lia) (own_history_lengths h ps Hown)) as Hm.
  unfold displayPoints.
  destruct Hr as [-> | (z & -> & Hz)].
  - exists (Z.of_nat (maxDataPoints h ps)). simpl. repeat split; lia.
  - rewrite js_min_fin. eexists. split; [reflexivity|]. simpl.
    rewrite Z.ltb_ge. repeat split; lia.
Qed.

Lemma displayPoints_bounds_witness :
  exists k, displayPoints (store after_first_probe)
              (Monitor.providers (monitor after_first_probe)) (setDataRange "50") = JS.Fin k /\
            1 <= k <= 100.
Proof.
  destruct (displayPoints_bounds (store after_first_probe)
              (Monitor.providers (monitor after_first_probe)) (setDataRange "50"))
    as (k & Hk & Hb & _).
  - right. exists 50. split; [reflexivity|lia].
  - split.
    + apply (bool_decide_unpack _). vm_compute. reflexivity.
    + repeat (apply Forall_cons; split; [eexists; split; [reflexivity | simpl; lia]|]).
      apply Forall_nil_2.
  - eauto.
Defined.

Lemma slice_last_Forall {A} (P : A -> Prop) (k : JS.num) (l : list A) :
  Forall P l -> Forall P (slice_last k l).
Proof.
  intros H. destruct k as [z| | |]; simpl; auto.
  unfold lastn. destruct (0 <? z); apply Forall_drop; exact H.
Qed.

Lemma scan_history_spec (xs : list Sample) : forall m,
  Forall (fun x => exists z, latency x = JS.Fin z) xs ->
  exists b, scan_history (JS.Fin m) xs = JS.Fin b /\ m <= b /\
            Forall (fun x => forall z, latency x = JS.Fin z -> z <= b) xs.
Proof.
  induction xs as [|x xs IH]; intros m Hfin.
  - exists m. repeat split; [lia | constructor].
  - apply Forall_cons in Hfin as [[z Hz] Hfin].
    unfold scan_history. simpl. fold (scan_history
      (if JS.gt (latency x) (JS.Fin m) then latency x else JS.Fin m) xs).
    rewrite Hz. unfold JS.gt. simpl.
    destruct (Z.ltb_spec m z) as [Hlt|Hge].
    + destruct (IH z Hfin) as (b & Hb & Hzb & Hall).
      exists b. repeat split; [exact Hb | lia |].
      constructor; [|exact Hall]. intros z' Hz'. rewrite Hz in Hz'. inversion Hz'. lia.
    + destruct (IH m Hfin) as (b & Hb & Hmb & Hall).
      exists b. repeat split; [exact Hb | lia |].
      constructor; [|exact Hall]. intros z' Hz'. rewrite Hz in Hz'. inversion Hz'. lia.
Qed.

Lemma highest_latency_spec (h : heap) (dp : JS.num) (ps : list Provider.t) : forall m,
  finite_histories h ps ->
  exists b,
    foldl (fun m p =>
             if Arr.isArray h (Stats.history (Provider.stats p))
             then scan_history m
                    (slice_last dp (Arr.elems h (Stats.history (Provider.stats p))))
             else m)
      (JS.Fin m) ps = JS.Fin b /\
    m <= b /\
    Forall (fun p =>
              Arr.isArray h (Stats.history (Provider.stats p)) = true ->
              Forall (fun x => forall z, latency x = JS.Fin z -> z <= b)
                (slice_last dp (Arr.elems h (Stats.history (Provider.stats p))))) ps.
Proof.
  induction ps as [|p ps IH]; intros m Hfin.
  - exists m. repeat split; [lia | constructor].
  - apply Forall_cons in Hfin as [Hp Hfin]. simpl.
    destruct (Arr.isArray h (Stats.history (Provider.stats p))) eqn:Ha.
    + destruct (scan_history_spec _ m (slice_last_Forall _ dp _ Hp)) as (b1 & Hb1 & Hm1 & Hall1).
      rewrite Hb1. destruct (IH b1 Hfin) as (b & Hb & Hle & Hall).
      exists b. repeat split; [exact Hb | lia |].
      constructor; [|exact Hall]. intros _.
      eapply Forall_impl; [exact Hall1|]. simpl. intros x Hx z Hz. specialize (Hx z Hz). lia.
    + destruct (IH m Hfin) as (b & Hb & Hle & Hall).
      exists b. repeat split; [exact Hb | lia |].
      constructor; [|exact Hall]. intros Hc. congruence.
Qed.

Lemma ceil_hundreds_bounds (b : Z) :
  let c := - ((- b) / 100) * 100 in
  b <= c < b + 100 /\ c mod 100 = 0.
Proof.
  intros c. subst c.
  pose proof (Z.div_mod (- b) 100 ltac:(lia)) as Hd.
  pose proof (Z.mod_pos_bound (- b) 100 ltac:(lia)) as Hm.
  split; [lia|].
  replace (- (- b / 100) * 100) with ((- (- b / 100)) * 100) by lia.
  apply Z.mod_mul. lia.
Qed.

(** X20: when every recorded latency is finite, the top of the latency
    axis is a positive multiple of 100 and no displayed point lies above
    it: it is the highest displayed latency rounded up to the next
    hundred, and 1000 when that would be 0. *)
Theorem axis_max_bounds_displayed (h : heap) (ps : list Provider.t) (dp : JS.num) :
  finite_histories h ps ->
  exists a b,
    axis_max h ps dp = JS.Fin a /\ 0 < a /\ a mod 100 = 0 /\
    highest_latency h ps dp = JS.Fin b /\ 0 <= b <= a /\
    (b = 0 -> a = 1000) /\ (0 < b -> a < b + 100) /\
    forall p x z,
      p ∈ ps ->
      Arr.isArray h (Stats.history (Provider.stats p)) = true ->
      x ∈ slice_last dp (Arr.elems h (Stats.history (Provider.stats p))) ->
      latency x = JS.Fin z ->
      z <= a.
Proof.
  intros Hfin.
  destruct (highest_latency_spec h dp ps 0 Hfin) as (b & Hb & Hb0 & Hall).
  fold (highest_latency h ps dp) in Hb.
  destruct (ceil_hundreds_bounds b) as [Hc Hmod]. cbv zeta in Hc, Hmod.
  set (c := - (- b / 100) * 100) in *.
  assert (Hpts : forall a, b <= a -> forall p x z,
             p ∈ ps ->
             Arr.isArray h (Stats.history (Provider.stats p)) = true ->
             x ∈ slice_last dp (Arr.elems h (Stats.history (Provider.stats p))) ->
             latency x = JS.Fin z -> z <= a).
  { intros a Ha p x z Hp Harr Hx Hz.
    rewrite Forall_forall in Hall. specialize (Hall p Hp Harr).
    rewrite Forall_forall in Hall. specialize (Hall x Hx z Hz). lia. }
  unfold axis_max. rewrite Hb. unfold ceil_hundreds, JS.or, JS.truthy. fold c.
  destruct (Z.eqb_spec c 0) as [Hz|Hnz]; simpl.
  - exists 1000, b. repeat split; try lia. apply Hpts. lia.
  - exists c, b. repeat split; try lia. apply Hpts. lia.
Qed.

Lemma axis_max_bounds_displayed_witness :
  exists a b,
    axis_max (store after_first_probe) (Monitor.providers (monitor after_first_probe))
      (JS.Fin 1) = JS.Fin a /\ 0 < a /\ a mod 100 = 0 /\
    highest_latency (store after_first_probe) (Monitor.providers (monitor after_first_probe))
      (JS.Fin 1) = JS.Fin b /\ 0 <= b <= a.
Proof.
  destruct (axis_max_bounds_displayed (store after_first_probe)
              (Monitor.providers (monitor after_first_probe)) (JS.Fin 1))
    as (a & b & Ha & Hpos & Hmod & Hb & Hba & _).
  - repeat (apply Forall_cons; split;
            [vm_compute; repeat constructor; eexists; reflexivity|]).
    apply Forall_nil_2.
  - exists a, b. repeat split; first [assumption | lia].
Defined.
